(** * The Exploration storage model (apps/exploration/models.py)

    A shallow embedding of the [Exploration] model class and of the part of
    the datastore it talks to.  Methods that read or write the datastore, or
    that mutate the in-memory entity, are computations in a state-and-exception
    monad; the exception is returned together with the state reached when it
    was raised, so that what a failing call has already written stays
    visible. *)

From Stdlib Require Import ZArith Ascii String.
From stdpp Require Import gmap strings list fin_maps.

(** ** Exceptions *)

(** The exception classes that the code of the model can raise.
    [ModelValidationError] is [BaseModel.ModelValidationError]; [Exception] is
    Python's generic exception; the others are raised by the interpreter
    (indexing an empty list, [int] of a non-number, an attribute of [None]). *)
Inductive exception : Type :=
  | ModelValidationError (msg : string)
  | Exception (msg : string)
  | IndexError (msg : string)
  | ValueError (msg : string)
  | AttributeError (msg : string).

Definition is_validation_error (e : exception) : bool :=
  match e with ModelValidationError _ => true | _ => false end.

(** ** State and exception monad *)

Definition M (S A : Type) : Type := S → (exception + A) * S.

Global Instance M_ret {S} : MRet (M S) := λ A x s, (inr x, s).

Global Instance M_bind {S} : MBind (M S) := λ A B f m s,
  match m s with
  | (inl e, s') => (inl e, s')
  | (inr x, s') => f x s'
  end.

Definition raise {S A} (e : exception) : M S A := λ s, (inl e, s).
Definition gets {S A} (f : S → A) : M S A := λ s, (inr (f s), s).
Definition modify {S} (f : S → S) : M S unit := λ s, (inr tt, f s).

(** [for x in l: body x] *)
Fixpoint for_each {S A} (l : list A) (body : A → M S unit) : M S unit :=
  match l with
  | [] => mret tt
  | x :: l' => body x ;; for_each l' body
  end.

(** [[body x for x in l]] : the whole list is built, left to right. *)
Fixpoint comprehension {S A B} (l : list A) (body : A → M S B) : M S (list B) :=
  match l with
  | [] => mret []
  | x :: l' => y ← body x; ys ← comprehension l' body; mret (y :: ys)
  end.

(** [o.attr] for a value that may be [None]. *)
Definition attr {S A B} (o : option A) (f : A → B) : M S B :=
  match o with
  | Some x => mret (f x)
  | None => raise (AttributeError "'NoneType' object has no attribute")
  end.

(** [l[0]] *)
Definition first_item {S A} (l : list A) : M S A :=
  match l with
  | x :: _ => mret x
  | [] => raise (IndexError "list index out of range")
  end.

(** A computation raises [e] from state [s]. *)
Definition raises {S A} (m : M S A) (s : S) (e : exception) : Prop :=
  (m s).1 = inl e.

(** A computation returns [x] from state [s]. *)
Definition returns {S A} (m : M S A) (s : S) (x : A) : Prop :=
  (m s).1 = inr x.

(** ** Python strings *)

(** [c.isdigit()] for one byte of a [str]. *)
Definition isdigit_char (c : ascii) : bool :=
  (48 <=? nat_of_ascii c) && (nat_of_ascii c <=? 57).

(** [s.isdigit()]: every character is a digit and there is at least one. *)
Definition isdigit (s : string) : bool :=
  match s with
  | EmptyString => false
  | _ => forallb isdigit_char (list_ascii_of_string s)
  end.

Definition digit_value (c : ascii) : Z := Z.of_nat (nat_of_ascii c) - 48.

(** The number that a string of digits denotes in base ten. *)
Definition decimal (s : string) : Z :=
  fold_left (λ acc c, 10 * acc + digit_value c)%Z (list_ascii_of_string s) 0%Z.

(** [int(s)] for a string without sign or blanks; [ValueError] otherwise. *)
Definition int {S} (s : string) : M S Z :=
  if isdigit s
  then mret (decimal s)
  else raise (ValueError "invalid literal for int() with base 10").

(** ** Users and parameters *)

Module User.
(** [google.appengine.api.users.User]: two users are equal when their
    email and authentication domain are. *)
Record t := { email : string; auth_domain : string }.

Global Instance user_eq_dec : EqDecision t.
Proof. solve_decision. Defined.
End User.

Module Parameter_.
(** Parameters are declared in apps/parameter/models.py; an exploration
    only carries them, so a parameter is represented by its name. *)
Record t := { name : string }.
End Parameter_.

(** ** The State model, as far as explorations use it *)

Module State.
Record t := { id : string; name : string }.

Global Instance state_eq_dec : EqDecision t.
Proof. solve_decision. Defined.

(** The stored entities of kind State: the name of each, by the id of its
    key.  An entity read back carries the id it is stored under. *)
Abbreviation kind := (gmap string string).

(** [cls.get_by_id(entity_id)] *)
Definition get_by_id (entity_id : string) (k : kind) : option t :=
  (λ n, {| id := entity_id; name := n |}) <$> k !! entity_id.

(** The exception of a strict lookup that finds nothing. *)
Definition not_found (entity_id : string) : exception :=
  Exception ("Entity for class State with id " +:+ entity_id +:+ " not found").

(** Modelled from the spec: [IdModel.get] of apps/base_model/models.py is not
    in this file.  A state id either resolves to an existing State or it
    does not; with [strict=False] the lookup then gives [None], as the
    validation hook relies on, and with the default [strict=True] it
    raises. *)
Definition get (entity_id : string) (strict : bool) : M kind (option t) :=
  entity ← gets (get_by_id entity_id);
  if strict && negb (bool_decide (is_Some entity))
  then raise (not_found entity_id)
  else mret entity.

(** Modelled from the spec: [put] of the base model, which stores the
    entity under its id. *)
Definition put (s : t) : M kind unit :=
  modify (λ k : kind, <[id s := name s]> k).

(** Modelled from the spec: [delete] of the base model, which removes the
    entity stored under the id. *)
Definition delete (s : t) : M kind unit :=
  modify (λ k : kind, base.delete (id s) k).
End State.

(** ** Queries *)

Module Query.
Section Query.
Context {E : Type}.

(** An ndb query over one kind: the conjunction of the filters applied so
    far.  A filter is a predicate on entities. *)
Record t := { filters : list (E → bool) }.

(** [cls.query()] *)
Definition query : t := {| filters := [] |}.

(** [q.filter(node)] *)
Definition filter (node : E → bool) (q : t) : t :=
  {| filters := filters q ++ [node] |}.

(** [ndb.OR(a, b)] *)
Definition OR (a b : E → bool) : E → bool := λ e, a e || b e.

(** Iterating over the query: the stored entities that pass every filter,
    each once. *)
Definition fetch (k : gmap string E) (q : t) : list E :=
  List.filter (λ e, forallb (λ node, node e) (filters q))
              (map snd (map_to_list k)).

(** [q.count()] *)
Definition count (k : gmap string E) (q : t) : nat := length (fetch k q).
End Query.
Global Arguments t : clear implicits.
End Query.

(** Python's [any] on a list of booleans. *)
Definition any (l : list bool) : bool := existsb (λ b, b) l.

(** Truth value of a string: the empty string is false. *)
Definition nonempty (s : string) : bool :=
  match s with EmptyString => false | _ => true end.

(** ** The Exploration model *)

Module Exploration.

(** The entity: the id of its key and its properties. [category] is a
    required property and [title] and [is_public] have defaults, so they
    always hold a value; [image_id] may be unset. *)
Record t := {
  id : string;
  category : string;
  title : string;
  state_ids : list string;
  parameters : list Parameter_.t;
  is_public : bool;
  image_id : option string;
  editors : list User.t
}.

Definition set_state_ids (l : list string) (e : t) : t :=
  {| id := id e; category := category e; title := title e;
     state_ids := l; parameters := parameters e;
     is_public := is_public e; image_id := image_id e;
     editors := editors e |}.

Definition set_editors (l : list User.t) (e : t) : t :=
  {| id := id e; category := category e; title := title e;
     state_ids := state_ids e; parameters := parameters e;
     is_public := is_public e; image_id := image_id e;
     editors := l |}.

(** The datastore: the stored entities of the two kinds, by id. *)
Record datastore := {
  State_kind : State.kind;
  Exploration_kind : gmap string t
}.

(** What a method call works on: the entity in memory it is called on, and
    the datastore. *)
Record heap := { self : t; ndb : datastore }.

Definition with_self (f : t → t) (h : heap) : heap :=
  {| self := f (self h); ndb := ndb h |}.

Definition with_State_kind (f : State.kind → State.kind) (h : heap) : heap :=
  {| self := self h;
     ndb := {| State_kind := f (State_kind (ndb h));
               Exploration_kind := Exploration_kind (ndb h) |} |}.

Definition with_Exploration_kind (f : gmap string t → gmap string t)
    (h : heap) : heap :=
  {| self := self h;
     ndb := {| State_kind := State_kind (ndb h);
               Exploration_kind := f (Exploration_kind (ndb h)) |} |}.

(** A call on the State model, run on the State kind of the datastore. *)
Definition on_State_kind {A} (m : M State.kind A) : M heap A := λ h,
  ((m (State_kind (ndb h))).1,
   with_State_kind (λ _, (m (State_kind (ndb h))).2) h).

(** [cls.is_public == v] *)
Definition is_public_eq (v : bool) : t → bool :=
  λ e, bool_decide (is_public e = v).

(** [cls.editors == user]: on a repeated property, equality with one of the
    values. *)
Definition editors_eq (user : User.t) : t → bool :=
  λ e, bool_decide (user ∈ editors e).

Definition get_all_explorations : Query.t t := Query.query.

Definition get_public_explorations : Query.t t :=
  Query.filter (is_public_eq true) get_all_explorations.

Definition get_viewable_explorations (user : User.t) : Query.t t :=
  Query.filter (Query.OR (is_public_eq true) (editors_eq user))
               get_all_explorations.

Definition get_exploration_count (k : gmap string t) : nat :=
  Query.count k get_all_explorations.

(** [user and (user in self.editors)]: [None] when [user] is [None]
    (the value of [user] itself), otherwise the boolean. *)
Definition is_editable_by (user : option User.t) : M heap (option bool) :=
  match user with
  | None => mret None
  | Some u =>
      self_editors ← gets (editors ∘ self);
      mret (Some (bool_decide (u ∈ self_editors)))
  end.

(** [user and user == self.editors[0]] *)
Definition is_owned_by (user : option User.t) : M heap (option bool) :=
  match user with
  | None => mret None
  | Some u =>
      self_editors ← gets (editors ∘ self);
      owner ← first_item self_editors;
      mret (Some (bool_decide (u = owner)))
  end.

(** Truth value of what the two methods above return. *)
Definition truthy (v : option bool) : bool :=
  match v with Some b => b | None => false end.

Definition add_editor (editor : User.t) : M heap unit :=
  modify (with_self (λ e, set_editors (editors e ++ [editor]) e)).

Definition init_state : M heap (option State.t) :=
  self_state_ids ← gets (state_ids ∘ self);
  state_id ← first_item self_state_ids;
  on_State_kind (State.get state_id true).

Definition _has_state_named (state_name : string) : M heap bool :=
  self_state_ids ← gets (state_ids ∘ self);
  flags ← comprehension self_state_ids (λ state_id,
    entity ← on_State_kind (State.get state_id true);
    n ← attr entity State.name;
    mret (bool_decide (n = state_name)));
  mret (any flags).

(** The methods of the model, with their arguments. *)
Inductive method : Type :=
  | call_pre_put_hook
  | call_put
  | call_delete
  | call_init_state
  | call_is_demo
  | call_has_state_named (state_name : string)
  | call_is_editable_by (user : option User.t)
  | call_is_owned_by (user : option User.t)
  | call_add_state (state_name : string) (state_id : option string)
  | call_add_editor (editor : User.t)
  | call_get_all_explorations
  | call_get_public_explorations
  | call_get_viewable_explorations (user : User.t)
  | call_get_exploration_count.

(** What a call gives back. *)
Inductive value : Type :=
  | VNone
  | VBool (b : bool)
  | VAnd (v : option bool)
  | VState (s : option State.t)
  | VQuery (q : Query.t t)
  | VInt (n : nat).

Section Config.
(** [feconf.DEMO_EXPLORATIONS], of which only the length is used, and
    [State.get_new_id], which is inherited from the base model: both are
    defined outside this file and are parameters here.  The new id may
    depend on the states already stored. *)
Context (DEMO_EXPLORATIONS : list string).
Context (State_get_new_id : State.kind → string → string).

Definition is_demo : M heap bool :=
  self_id ← gets (id ∘ self);
  if isdigit self_id
  then n ← int self_id;
       mret ((0 <=? n)%Z && (n <? Z.of_nat (length DEMO_EXPLORATIONS))%Z)
  else mret false.

Definition _pre_put_hook : M heap unit :=
  self_state_ids ← gets (state_ids ∘ self);
  (if bool_decide (self_state_ids = [])
   then raise (ModelValidationError "This exploration has no states.")
   else mret tt);;
  for_each self_state_ids (λ state_id,
    entity ← on_State_kind (State.get state_id false);
    if negb (bool_decide (is_Some entity))
    then raise (ModelValidationError "Invalid state_id %s.")
    else mret tt);;
  demo ← is_demo;
  self_editors ← gets (editors ∘ self);
  if negb demo && bool_decide (self_editors = [])
  then raise (ModelValidationError "This exploration has no editors.")
  else mret tt.

(** Modelled from the spec: [put] is inherited from the base model, which
    is not in this file.  Saving runs the validation hook first and, when
    the hook returns, stores the entity under its id. *)
Definition put : M heap unit :=
  _pre_put_hook;;
  modify (λ h, with_Exploration_kind (<[id (self h) := self h]>) h).

(** Modelled from the spec: [super(Exploration, self).delete()], which
    removes the entity stored under the id. *)
Definition super_delete : M heap unit :=
  modify (λ h, with_Exploration_kind (base.delete (id (self h))) h).

Definition delete : M heap unit :=
  self_state_ids ← gets (state_ids ∘ self);
  for_each self_state_ids (λ state_id,
    entity ← on_State_kind (State.get state_id true);
    match entity with
    | Some s => on_State_kind (State.delete s)
    | None => raise (AttributeError "'NoneType' object has no attribute")
    end);;
  super_delete.

Definition add_state (state_name : string) (state_id : option string)
    : M heap State.t :=
  duplicate ← _has_state_named state_name;
  if (duplicate : bool)
  then raise (Exception ("Duplicate state name " +:+ state_name))
  else
    state_id ← match state_id with
               | Some s =>
                   if nonempty s then mret s
                   else gets (λ h, State_get_new_id (State_kind (ndb h))
                                                    state_name)
               | None =>
                   gets (λ h, State_get_new_id (State_kind (ndb h))
                                               state_name)
               end;
    let new_state := {| State.id := state_id; State.name := state_name |} in
    on_State_kind (State.put new_state);;
    modify (with_self (λ e,
      set_state_ids (state_ids e ++ [State.id new_state]) e));;
    put;;
    mret new_state.

(** Calling a method on the entity in memory. *)
Definition call (m : method) : M heap value :=
  match m with
  | call_pre_put_hook => _pre_put_hook;; mret VNone
  | call_put => put;; mret VNone
  | call_delete => delete;; mret VNone
  | call_init_state => s ← init_state; mret (VState s)
  | call_is_demo => b ← is_demo; mret (VBool b)
  | call_has_state_named state_name =>
      b ← _has_state_named state_name; mret (VBool b)
  | call_is_editable_by user => v ← is_editable_by user; mret (VAnd v)
  | call_is_owned_by user => v ← is_owned_by user; mret (VAnd v)
  | call_add_state state_name state_id =>
      s ← add_state state_name state_id; mret (VState (Some s))
  | call_add_editor editor => add_editor editor;; mret VNone
  | call_get_all_explorations => mret (VQuery get_all_explorations)
  | call_get_public_explorations => mret (VQuery get_public_explorations)
  | call_get_viewable_explorations user =>
      mret (VQuery (get_viewable_explorations user))
  | call_get_exploration_count =>
      n ← gets (λ h, get_exploration_count (Exploration_kind (ndb h)));
      mret (VInt n)
  end.
End Config.
End Exploration.

(** ** Vocabulary of the properties *)

(** The state id resolves to a stored State. *)
Definition resolves (k : State.kind) (sid : string) : bool :=
  bool_decide (is_Some (State.get_by_id sid k)).

(** The state id resolves to a stored State of the given name. *)
Definition state_named (k : State.kind) (state_name sid : string) : bool :=
  bool_decide (State.name <$> State.get_by_id sid k = Some state_name).

(** The id is the decimal index of one of [n] demo explorations. *)
Definition is_demo_id (n : nat) (s : string) : bool :=
  isdigit s && ((0 <=? decimal s)%Z && (decimal s <? Z.of_nat n)%Z).

(** The message of [add_state] for a name that is taken. *)
Definition duplicate_state_name (state_name : string) : exception :=
  Exception ("Duplicate state name " +:+ state_name).

(** The id that [add_state] gives to the new State: the one it is given
    unless that is [None] or empty, and a new one otherwise. *)
Definition new_state_id (State_get_new_id : State.kind → string → string)
    (h : Exploration.heap) (state_name : string) (state_id : option string)
    : string :=
  match state_id with
  | Some s =>
      if nonempty s then s
      else State_get_new_id (Exploration.State_kind (Exploration.ndb h))
                            state_name
  | None =>
      State_get_new_id (Exploration.State_kind (Exploration.ndb h)) state_name
  end.

(** The heap once [add_state] has stored the new State and has put its id at
    the end of the list of the entity in memory. *)
Definition with_new_state (h : Exploration.heap) (sid state_name : string)
    : Exploration.heap :=
  Exploration.with_self
    (λ e, Exploration.set_state_ids (Exploration.state_ids e ++ [sid]) e)
    (Exploration.with_State_kind (<[sid := state_name]>) h).

(** The heap once the entity in memory has been stored. *)
Definition committed (h : Exploration.heap) : Exploration.heap :=
  Exploration.with_Exploration_kind
    (<[Exploration.id (Exploration.self h) := Exploration.self h]>) h.

(** The exploration has a state of the given name: one of its state ids
    resolves to a stored State with that name. *)
Definition contains_state_named (h : Exploration.heap) (state_name : string)
    : Prop :=
  ∃ sid s, sid ∈ Exploration.state_ids (Exploration.self h) ∧
           State.get_by_id sid (Exploration.State_kind (Exploration.ndb h))
             = Some s ∧
           State.name s = state_name.

(** The State kind after deleting the States of the ids of a list, one after
    the other. *)
Definition delete_states (l : list string) (k : State.kind) : State.kind :=
  foldl (λ k' sid, base.delete sid k') k l.

(** [delete] as the claim C5 words it: for every exploration it returns,
    no State of its state ids is left, and its record is gone. *)
Definition delete_as_claimed (h : Exploration.heap) : Prop :=
  ∃ h', Exploration.delete h = (inr tt, h') ∧
        (∀ sid, sid ∈ Exploration.state_ids (Exploration.self h) →
                State.get_by_id sid
                  (Exploration.State_kind (Exploration.ndb h')) = None) ∧
        Exploration.Exploration_kind (Exploration.ndb h')
          !! Exploration.id (Exploration.self h) = None.

(** The claim C2 as it is worded: whatever a method raises is a validation
    exception. *)
Definition only_validation_errors (DEMO_EXPLORATIONS : list string)
    (State_get_new_id : State.kind → string → string) : Prop :=
  ∀ (m : Exploration.method) (h : Exploration.heap) (e : exception),
    raises (Exploration.call DEMO_EXPLORATIONS State_get_new_id m) h e →
    is_validation_error e = true.

(** [add_state] as the claim C3 words it: it raises when the exploration has
    a state of that name, and otherwise returns a new State of that name,
    with the id given if one is given, which is stored, whose id is at the end
    of [state_ids], the exploration being stored too. *)
Definition add_state_as_claimed (DEMO_EXPLORATIONS : list string)
    (State_get_new_id : State.kind → string → string)
    (h : Exploration.heap) (state_name : string) (state_id : option string)
    : Prop :=
  (contains_state_named h state_name →
   ∃ e, raises (Exploration.add_state DEMO_EXPLORATIONS State_get_new_id
                  state_name state_id) h e) ∧
  (¬ contains_state_named h state_name →
   ∃ new_state h',
     Exploration.add_state DEMO_EXPLORATIONS State_get_new_id
       state_name state_id h = (inr new_state, h') ∧
     State.name new_state = state_name ∧
     (∀ s, state_id = Some s → State.id new_state = s) ∧
     State.get_by_id (State.id new_state)
       (Exploration.State_kind (Exploration.ndb h')) = Some new_state ∧
     Exploration.state_ids (Exploration.self h') =
       Exploration.state_ids (Exploration.self h) ++ [State.id new_state] ∧
     Exploration.Exploration_kind (Exploration.ndb h')
       !! Exploration.id (Exploration.self h) = Some (Exploration.self h')).

(** ** Sample data *)

Definition alice : User.t :=
  {| User.email := "alice@example.com"; User.auth_domain := "gmail.com" |}.

Definition bob : User.t :=
  {| User.email := "bob@example.com"; User.auth_domain := "gmail.com" |}.

(** Three demo explorations. *)
Definition three_demos : list string := ["welcome"; "pitch"; "counting"].

(** An id generator that derives the id from the name. *)
Definition id_of_name : State.kind → string → string :=
  λ _ state_name, "id-" +:+ state_name.

(** An exploration of two states and two editors, stored with its states. *)
Definition algebra : Exploration.t :=
  {| Exploration.id := "x7Kq"; Exploration.category := "Maths";
     Exploration.title := "Algebra"; Exploration.state_ids := ["s1"; "s2"];
     Exploration.parameters := []; Exploration.is_public := false;
     Exploration.image_id := None; Exploration.editors := [alice; bob] |}.

Definition algebra_heap : Exploration.heap :=
  {| Exploration.self := algebra;
     Exploration.ndb :=
       {| Exploration.State_kind := <["s1" := "Intro"]> (<["s2" := "Quiz"]> ∅);
          Exploration.Exploration_kind := <["x7Kq" := algebra]> ∅ |} |}.

(** A new exploration that is not a demo and has no editor yet, in memory
    only. *)
Definition draft : Exploration.t :=
  {| Exploration.id := "draft"; Exploration.category := "Maths";
     Exploration.title := "New exploration"; Exploration.state_ids := [];
     Exploration.parameters := []; Exploration.is_public := false;
     Exploration.image_id := None; Exploration.editors := [] |}.

Definition draft_heap : Exploration.heap :=
  {| Exploration.self := draft;
     Exploration.ndb := {| Exploration.State_kind := ∅;
                           Exploration.Exploration_kind := ∅ |} |}.

(** The second demo exploration: public, without editors. *)
Definition pitch : Exploration.t :=
  {| Exploration.id := "1"; Exploration.category := "Demos";
     Exploration.title := "Pitch"; Exploration.state_ids := ["p1"];
     Exploration.parameters := []; Exploration.is_public := true;
     Exploration.image_id := None; Exploration.editors := [] |}.

Definition pitch_heap : Exploration.heap :=
  {| Exploration.self := pitch;
     Exploration.ndb :=
       {| Exploration.State_kind := <["p1" := "Start"]> ∅;
          Exploration.Exploration_kind := <["1" := pitch]> ∅ |} |}.

(** An exploration that lists the same state id twice, as two calls of
    [add_state] with that id leave it. *)
Definition twice : Exploration.t :=
  {| Exploration.id := "tw"; Exploration.category := "Maths";
     Exploration.title := "Twice"; Exploration.state_ids := ["s1"; "s1"];
     Exploration.parameters := []; Exploration.is_public := false;
     Exploration.image_id := None; Exploration.editors := [alice] |}.

Definition twice_heap : Exploration.heap :=
  {| Exploration.self := twice;
     Exploration.ndb :=
       {| Exploration.State_kind := <["s1" := "Quiz"]> ∅;
          Exploration.Exploration_kind := <["tw" := twice]> ∅ |} |}.

(** A user who edits none of the sample explorations. *)
Definition carol : User.t :=
  {| User.email := "carol@example.com"; User.auth_domain := "gmail.com" |}.

(** A datastore holding the two stored sample explorations. *)
Definition two_explorations : gmap string Exploration.t :=
  <["x7Kq" := algebra]> (<["1" := pitch]> ∅).

(** An exploration with an editor and no state yet, in memory only. *)
Definition blank : Exploration.t :=
  {| Exploration.id := "bl4nk"; Exploration.category := "Maths";
     Exploration.title := "New exploration"; Exploration.state_ids := [];
     Exploration.parameters := []; Exploration.is_public := false;
     Exploration.image_id := None; Exploration.editors := [alice] |}.

Definition blank_heap : Exploration.heap :=
  {| Exploration.self := blank;
     Exploration.ndb := {| Exploration.State_kind := ∅;
                           Exploration.Exploration_kind := ∅ |} |}.

(** An exploration whose second state id does not resolve. *)
Definition dangling : Exploration.t :=
  {| Exploration.id := "dngl"; Exploration.category := "Maths";
     Exploration.title := "Dangling"; Exploration.state_ids := ["s1"; "gone"];
     Exploration.parameters := []; Exploration.is_public := false;
     Exploration.image_id := None; Exploration.editors := [alice] |}.

Definition dangling_heap : Exploration.heap :=
  {| Exploration.self := dangling;
     Exploration.ndb :=
       {| Exploration.State_kind := <["s1" := "Intro"]> ∅;
          Exploration.Exploration_kind := <["dngl" := dangling]> ∅ |} |}.

(** The exploration above before its state id was listed a second time: one
    state, stored under "s1". *)
Definition once : Exploration.t :=
  {| Exploration.id := "tw"; Exploration.category := "Maths";
     Exploration.title := "Twice"; Exploration.state_ids := ["s1"];
     Exploration.parameters := []; Exploration.is_public := false;
     Exploration.image_id := None; Exploration.editors := [alice] |}.

Definition once_heap : Exploration.heap :=
  {| Exploration.self := once;
     Exploration.ndb :=
       {| Exploration.State_kind := <["s1" := "Intro"]> ∅;
          Exploration.Exploration_kind := <["tw" := once]> ∅ |} |}.

(** * Properties *)

(** ** The monad and the datastore *)

Lemma bind_unfold {S A B} (m : M S A) (f : A → M S B) (s : S) :
  (m ≫= f) s =
  match m s with
  | (inl e, s') => (inl e, s')
  | (inr x, s') => f x s'
  end.
Proof. reflexivity. Qed.

Lemma bind_returns {S A B} (m : M S A) (f : A → M S B) (s s' : S) (x : A) :
  m s = (inr x, s') → (m ≫= f) s = f x s'.
Proof. intros Hm. rewrite bind_unfold, Hm. reflexivity. Qed.

Lemma gets_bind {S A B} (g : S → A) (f : A → M S B) (s : S) :
  (gets g ≫= f) s = f (g s) s.
Proof. reflexivity. Qed.

Lemma ret_bind {S A B} (x : A) (f : A → M S B) (s : S) :
  (mret x ≫= f) s = f x s.
Proof. reflexivity. Qed.

Lemma raise_bind {S A B} (e : exception) (f : A → M S B) (s : S) :
  (raise e ≫= f) s = (inl e, s).
Proof. reflexivity. Qed.

Lemma modify_bind {S B} (g : S → S) (f : unit → M S B) (s : S) :
  (modify g ≫= f) s = f tt (g s).
Proof. reflexivity. Qed.

Lemma ret_run {S A} (x : A) (s : S) : (mret x : M S A) s = (inr x, s).
Proof. reflexivity. Qed.

Lemma raise_run {S A} (e : exception) (s : S) :
  (raise e : M S A) s = (inl e, s).
Proof. reflexivity. Qed.

(** Runs the leading step of a computation when it is one of the primitive
    ones. *)
Ltac step :=
  first [ rewrite gets_bind | rewrite ret_bind | rewrite raise_bind
        | rewrite modify_bind | rewrite ret_run | rewrite raise_run ].

Lemma with_State_kind_same (h : Exploration.heap) :
  Exploration.with_State_kind
    (λ _, Exploration.State_kind (Exploration.ndb h)) h = h.
Proof. destruct h as [e [ks ke]]. reflexivity. Qed.

Lemma get_by_id_is_Some (sid : string) (k : State.kind) :
  is_Some (State.get_by_id sid k) ↔ is_Some (k !! sid).
Proof. unfold State.get_by_id. apply fmap_is_Some. Qed.

(** A lookup that is not strict gives the entity or [None] and leaves the
    heap as it is. *)
Lemma get_not_strict (sid : string) (h : Exploration.heap) :
  Exploration.on_State_kind (State.get sid false) h =
  (inr (State.get_by_id sid (Exploration.State_kind (Exploration.ndb h))), h).
Proof.
  destruct h as [e [ks ke]]. reflexivity.
Qed.

(** A strict lookup gives the entity, or raises when there is none; it leaves
    the heap as it is. *)
Lemma get_strict (sid : string) (h : Exploration.heap) :
  Exploration.on_State_kind (State.get sid true) h =
  (match State.get_by_id sid (Exploration.State_kind (Exploration.ndb h)) with
   | Some s => inr (Some s)
   | None => inl (State.not_found sid)
   end, h).
Proof.
  destruct h as [e [ks ke]].
  unfold Exploration.on_State_kind, State.get, gets.
  rewrite !bind_unfold. cbn [fst snd andb Exploration.ndb Exploration.State_kind].
  destruct (State.get_by_id sid ks) as [s|] eqn:E.
  - rewrite bool_decide_true by eauto. reflexivity.
  - rewrite bool_decide_false by (by intros [? ?]). reflexivity.
Qed.

Section Properties.
Context (DEMO_EXPLORATIONS : list string).
Context (State_get_new_id : State.kind → string → string).

Local Abbreviation is_demo := (Exploration.is_demo DEMO_EXPLORATIONS).
Local Abbreviation _pre_put_hook := (Exploration._pre_put_hook DEMO_EXPLORATIONS).
Local Abbreviation put := (Exploration.put DEMO_EXPLORATIONS).
Local Abbreviation add_state :=
  (Exploration.add_state DEMO_EXPLORATIONS State_get_new_id).
Local Abbreviation call := (Exploration.call DEMO_EXPLORATIONS State_get_new_id).
Local Abbreviation states h := (Exploration.State_kind (Exploration.ndb h)).
Local Abbreviation explorations h :=
  (Exploration.Exploration_kind (Exploration.ndb h)).

(** [is_demo] always gives a boolean: [int] is only reached for a string of
    digits.  It leaves the heap as it is. *)
Lemma is_demo_total (h : Exploration.heap) :
  ∃ b : bool, is_demo h = (inr b, h).
Proof.
  unfold Exploration.is_demo, gets. rewrite bind_unfold. cbn.
  destruct (isdigit _) eqn:E.
  - unfold int. rewrite E. eexists. reflexivity.
  - eexists. reflexivity.
Qed.

(** The loop of the validation hook: it returns when every id resolves and
    raises at the first one that does not. *)
Lemma hook_loop (ids : list string) (h : Exploration.heap) :
  for_each ids (λ state_id,
    entity ← Exploration.on_State_kind (State.get state_id false);
    if negb (bool_decide (is_Some entity))
    then raise (ModelValidationError "Invalid state_id %s.")
    else mret tt) h =
  (if forallb (λ sid, bool_decide (is_Some (State.get_by_id sid (states h)))) ids
   then inr tt else inl (ModelValidationError "Invalid state_id %s."), h).
Proof.
  induction ids as [|sid ids IH]; [reflexivity|].
  cbn [for_each forallb]. rewrite bind_unfold.
  rewrite (bind_returns _ _ _ _ _ (get_not_strict sid h)).
  destruct (bool_decide (is_Some _)); cbn; [apply IH | reflexivity].
Qed.

(** The validation hook, as a function of the heap. *)
Lemma _pre_put_hook_eq (h : Exploration.heap) (demo : bool) :
  is_demo h = (inr demo, h) →
  _pre_put_hook h =
  (if bool_decide (Exploration.state_ids (Exploration.self h) = [])
   then inl (ModelValidationError "This exploration has no states.")
   else if forallb (λ sid, bool_decide (is_Some (State.get_by_id sid (states h))))
                   (Exploration.state_ids (Exploration.self h))
   then if negb demo && bool_decide (Exploration.editors (Exploration.self h) = [])
        then inl (ModelValidationError "This exploration has no editors.")
        else inr tt
   else inl (ModelValidationError "Invalid state_id %s."), h).
Proof.
  intros Hdemo. unfold Exploration._pre_put_hook.
  step. cbn [compose].
  destruct (bool_decide (Exploration.state_ids _ = [])); [by step|].
  step. rewrite bind_unfold, hook_loop.
  destruct (forallb _ _); [|reflexivity].
  rewrite (bind_returns _ _ _ _ _ Hdemo). step. cbn [compose].
  destruct (negb demo && _); by step.
Qed.

Lemma forallb_false_witness {A} (f : A → bool) (l : list A) :
  forallb f l = false → ∃ x, x ∈ l ∧ f x = false.
Proof.
  induction l as [|x l IH]; cbn; [discriminate|].
  destruct (f x) eqn:E; cbn.
  - intros [y [Hy Hf]]%IH. exists y. split; [by right | done].
  - intros _. exists x. split; [by left | done].
Qed.

Lemma forallb_true_elem {A} (f : A → bool) (l : list A) :
  forallb f l = true ↔ ∀ x, x ∈ l → f x = true.
Proof.
  rewrite forallb_forall. split; intros H x Hx; apply H; by apply list_elem_of_In.
Qed.

(** C1. The validation hook raises a [ModelValidationError] exactly when the
    list of state ids is empty, or one of the ids does not resolve to a stored
    State, or the exploration is not a demo and has no editor.  It raises
    nothing else, and when the three invariants hold it returns without
    touching the heap, so that [put] stores the exploration. *)
Theorem pre_put_hook_validates (h : Exploration.heap) :
  ((∃ msg, raises _pre_put_hook h (ModelValidationError msg)) ↔
     Exploration.state_ids (Exploration.self h) = [] ∨
     (∃ sid, sid ∈ Exploration.state_ids (Exploration.self h) ∧
             State.get_by_id sid (states h) = None) ∨
     (returns is_demo h false ∧
      Exploration.editors (Exploration.self h) = [])) ∧
  (∀ e, raises _pre_put_hook h e → is_validation_error e = true) ∧
  (Exploration.state_ids (Exploration.self h) ≠ [] →
   (∀ sid, sid ∈ Exploration.state_ids (Exploration.self h) →
           is_Some (State.get_by_id sid (states h))) →
   returns is_demo h true ∨ Exploration.editors (Exploration.self h) ≠ [] →
   _pre_put_hook h = (inr tt, h) ∧
   put h = (inr tt,
            Exploration.with_Exploration_kind
              (<[Exploration.id (Exploration.self h) := Exploration.self h]>)
              h)).
Proof.
  destruct (is_demo_total h) as [demo Hdemo].
  unfold raises, returns, Exploration.put.
  rewrite bind_unfold, (_pre_put_hook_eq h demo Hdemo), Hdemo. cbn [fst].
  case_bool_decide as Hids.
  { split; [|split].
    - split; [by left | eauto].
    - by intros e [= <-].
    - done. }
  destruct (forallb _ _) eqn:Hall.
  - rewrite forallb_true_elem in Hall.
    assert (Hres : ∀ sid, sid ∈ Exploration.state_ids (Exploration.self h) →
                          is_Some (State.get_by_id sid (states h))).
    { intros sid Hsid. apply Hall in Hsid. by apply bool_decide_eq_true in Hsid. }
    case_bool_decide as Heds; destruct demo; cbn [negb andb].
    + split; [|split]; [|done|done].
      split; [by intros [? [=]]|].
      intros [?|[(sid & Hsid & Hn)|[[=] _]]]; [done|].
      apply Hres in Hsid. rewrite Hn in Hsid. by destruct Hsid.
    + split; [|split].
      * split; [|eauto]. intros _. right. right. done.
      * by intros e [= <-].
      * intros _ _ [[=]|?]. done.
    + split; [|split]; [|done|done].
      split; [by intros [? [=]]|].
      intros [?|[(sid & Hsid & Hn)|[[=] _]]]; [done|].
      apply Hres in Hsid. rewrite Hn in Hsid. by destruct Hsid.
    + split; [|split]; [|done|done].
      split; [by intros [? [=]]|].
      intros [?|[(sid & Hsid & Hn)|[_ ?]]]; [done| |done].
      apply Hres in Hsid. rewrite Hn in Hsid. by destruct Hsid.
  - apply forallb_false_witness in Hall as (sid & Hsid & Hf).
    apply bool_decide_eq_false in Hf.
    assert (State.get_by_id sid (states h) = None) as Hn.
    { destruct (State.get_by_id sid (states h)) eqn:E; [|done].
      exfalso. apply Hf. eauto. }
    split; [|split].
    + split; [|eauto]. intros _. right. left. eauto.
    + by intros e [= <-].
    + intros _ Hres _. apply Hres in Hsid. rewrite Hn in Hsid. by destruct Hsid.
Qed.
End Properties.

(** ** Queries *)

Lemma elem_of_fetch {E} (k : gmap string E) (q : Query.t E) (e : E) :
  e ∈ Query.fetch k q ↔
  (∃ i, k !! i = Some e) ∧ ∀ node, node ∈ Query.filters q → node e = true.
Proof.
  unfold Query.fetch.
  rewrite list_elem_of_In, filter_In, <- list_elem_of_In, forallb_true_elem.
  rewrite list_elem_of_fmap. split.
  - intros [([i x] & -> & Hix) Hall]. split; [|done].
    exists i. by apply elem_of_map_to_list.
  - intros [[i Hi] Hall]. split; [|done].
    exists (i, e). split; [done|]. by apply elem_of_map_to_list.
Qed.

(** The query over all explorations gives the stored explorations. *)
Lemma elem_of_get_all_explorations (k : gmap string Exploration.t) e :
  e ∈ Query.fetch k Exploration.get_all_explorations ↔ ∃ i, k !! i = Some e.
Proof.
  rewrite elem_of_fetch. cbn. split; [by intros [? _]|].
  intros H. split; [done|]. intros node Hnode. by apply elem_of_nil in Hnode.
Qed.



(** A query gives no more results than there are stored explorations: an
    exploration that is public and also edited by the user is not listed
    twice. *)
Lemma fetch_once (k : gmap string Exploration.t) (q : Query.t Exploration.t) :
  List.length (Query.fetch k q) ≤ size k.
Proof.
  unfold Query.fetch.
  etransitivity; [apply filter_length_le|].
  by rewrite length_map, length_map_to_list.
Qed.

(** ** Editors *)

(** C8. On an exploration with at least one editor, [is_owned_by] returns,
    and what it returns is true exactly when the user is not [None] and is
    the first of the editors. *)
Theorem is_owned_by_first_editor (h : Exploration.heap)
    (user : option User.t) :
  Exploration.editors (Exploration.self h) ≠ [] →
  ∃ v, Exploration.is_owned_by user h = (inr v, h) ∧
       (Exploration.truthy v = true ↔
        ∃ u, user = Some u ∧
             head (Exploration.editors (Exploration.self h)) = Some u).
Proof.
  intros Hne. unfold Exploration.is_owned_by.
  destruct user as [u|].
  - step. cbn [compose].
    destruct (Exploration.editors (Exploration.self h)) as [|owner eds];
      [done|].
    cbn [first_item]. step. step.
    eexists. split; [reflexivity|]. cbn.
    rewrite bool_decide_eq_true. split.
    + intros ->. eauto.
    + by intros (u' & [= ->] & [= ->]).
  - exists None. split; [reflexivity|]. cbn. split; [done|].
    by intros (u & [=] & _).
Qed.

(** C9. With no editors, [is_owned_by] raises [IndexError] for a user that is
    not [None]; [is_editable_by] always returns, and returns something false
    for [None] and for a user who is not among the editors. *)
Theorem is_owned_by_partial_is_editable_by_total :
  (∀ (h : Exploration.heap) (u : User.t),
     Exploration.editors (Exploration.self h) = [] →
     Exploration.is_owned_by (Some u) h =
     (inl (IndexError "list index out of range"), h)) ∧
  (∀ (h : Exploration.heap) (user : option User.t),
     ∃ v, Exploration.is_editable_by user h = (inr v, h) ∧
          (user = None ∨
           (∃ u, user = Some u ∧
                 u ∉ Exploration.editors (Exploration.self h)) →
           Exploration.truthy v = false)).
Proof.
  split.
  - intros h u Hnil. unfold Exploration.is_owned_by.
    step. cbn [compose]. rewrite Hnil. reflexivity.
  - intros h user. unfold Exploration.is_editable_by.
    destruct user as [u|].
    + step. cbn [compose]. step. eexists. split; [reflexivity|].
      intros [[=]|(u' & [= <-] & Hnot)]. cbn. by apply bool_decide_eq_false.
    + exists None. split; [reflexivity|]. done.
Qed.

(** C10. [add_editor] puts the editor at the end of the editors of the entity
    in memory, changes no other property of it, and writes nothing to the
    datastore. *)
Theorem add_editor_frame (editor : User.t) (h : Exploration.heap) :
  ∃ h', Exploration.add_editor editor h = (inr tt, h') ∧
        Exploration.editors (Exploration.self h') =
          Exploration.editors (Exploration.self h) ++ [editor] ∧
        Exploration.id (Exploration.self h') =
          Exploration.id (Exploration.self h) ∧
        Exploration.category (Exploration.self h') =
          Exploration.category (Exploration.self h) ∧
        Exploration.title (Exploration.self h') =
          Exploration.title (Exploration.self h) ∧
        Exploration.state_ids (Exploration.self h') =
          Exploration.state_ids (Exploration.self h) ∧
        Exploration.parameters (Exploration.self h') =
          Exploration.parameters (Exploration.self h) ∧
        Exploration.is_public (Exploration.self h') =
          Exploration.is_public (Exploration.self h) ∧
        Exploration.image_id (Exploration.self h') =
          Exploration.image_id (Exploration.self h) ∧
        Exploration.ndb h' = Exploration.ndb h.
Proof. eexists. split; [reflexivity|]. cbn. tauto. Qed.

(** ** State-list management *)

Section StateList.
Context (DEMO_EXPLORATIONS : list string).
Context (State_get_new_id : State.kind → string → string).

Local Abbreviation is_demo := (Exploration.is_demo DEMO_EXPLORATIONS).
Local Abbreviation _pre_put_hook :=
  (Exploration._pre_put_hook DEMO_EXPLORATIONS).
Local Abbreviation put := (Exploration.put DEMO_EXPLORATIONS).
Local Abbreviation add_state :=
  (Exploration.add_state DEMO_EXPLORATIONS State_get_new_id).
Local Abbreviation states h :=
  (Exploration.State_kind (Exploration.ndb h)).
Local Abbreviation explorations h :=
  (Exploration.Exploration_kind (Exploration.ndb h)).
Local Abbreviation ids h := (Exploration.state_ids (Exploration.self h)).

(** [is_demo] as a function of the id. *)
Lemma is_demo_eq (h : Exploration.heap) :
  is_demo h =
  (inr (is_demo_id (length DEMO_EXPLORATIONS)
                   (Exploration.id (Exploration.self h))), h).
Proof.
  unfold Exploration.is_demo, is_demo_id. step. cbn [compose].
  destruct (isdigit _) eqn:E; [|reflexivity].
  unfold int. rewrite E. reflexivity.
Qed.

(** The list that [_has_state_named] builds: a strict lookup per id. *)
Lemma names_comprehension (state_name : string) (l : list string)
    (h : Exploration.heap) :
  comprehension l (λ state_id,
    entity ← Exploration.on_State_kind (State.get state_id true);
    n ← attr entity State.name;
    mret (bool_decide (n = state_name))) h =
  (match List.find (λ sid, negb (resolves (states h) sid)) l with
   | Some bad => inl (State.not_found bad)
   | None => inr (map (state_named (states h) state_name) l)
   end, h).
Proof.
  induction l as [|sid l IH]; [reflexivity|].
  cbn [comprehension List.find map].
  rewrite bind_unfold, bind_unfold, get_strict.
  assert (Hres : resolves (states h) sid =
                 bool_decide (is_Some (State.get_by_id sid (states h))))
    by reflexivity.
  assert (Hnamed : state_named (states h) state_name sid =
                   bool_decide (State.name <$> State.get_by_id sid (states h)
                                = Some state_name))
    by reflexivity.
  rewrite Hres, Hnamed. clear Hres Hnamed.
  destruct (State.get_by_id sid (states h)) as [s|] eqn:E.
  - rewrite bool_decide_true by eauto. cbn [negb attr]. repeat step.
    rewrite bind_unfold, IH.
    destruct (List.find _ l); [reflexivity|].
    step. do 3 f_equal. cbn.
    apply bool_decide_ext. split; [by intros -> | by intros [= ->]].
  - rewrite bool_decide_false by (by intros [? ?]). reflexivity.
Qed.

Lemma _has_state_named_eq (state_name : string) (h : Exploration.heap) :
  Exploration._has_state_named state_name h =
  (match List.find (λ sid, negb (resolves (states h) sid)) (ids h) with
   | Some bad => inl (State.not_found bad)
   | None => inr (existsb (state_named (states h) state_name) (ids h))
   end, h).
Proof.
  unfold Exploration._has_state_named. step. cbn [compose].
  rewrite bind_unfold, names_comprehension.
  destruct (List.find _ _); [reflexivity|]. step.
  do 2 f_equal. unfold any. induction (ids h) as [|x l IH]; [done|].
  cbn. by rewrite IH.
Qed.

Lemma find_unresolved_None (k : State.kind) (l : list string) :
  List.find (λ sid, negb (resolves k sid)) l = None ↔
  ∀ sid, sid ∈ l → is_Some (State.get_by_id sid k).
Proof.
  split.
  - intros H sid Hsid%list_elem_of_In.
    pose proof (find_none _ _ H sid Hsid) as Hn. cbn in Hn.
    apply negb_false_iff, bool_decide_eq_true in Hn. done.
  - intros H. induction l as [|x l IH]; [done|]. cbn.
    unfold resolves at 1. rewrite bool_decide_true by (apply H; by left).
    cbn. apply IH. intros sid Hsid. apply H. by right.
Qed.

Lemma existsb_state_named (h : Exploration.heap) (state_name : string) :
  existsb (state_named (states h) state_name) (ids h) = true ↔
  contains_state_named h state_name.
Proof.
  unfold contains_state_named.
  generalize (states h) as k, (ids h) as l. intros k l.
  rewrite existsb_exists. unfold state_named. split.
  - intros (sid & Hin%list_elem_of_In & Hn%bool_decide_eq_true).
    destruct (State.get_by_id sid k) as [s|] eqn:E; [|done].
    exists sid, s. by injection Hn as ->.
  - intros (sid & s & Hin%list_elem_of_In & Hs & Hn).
    exists sid. split; [done|]. apply bool_decide_eq_true.
    by rewrite Hs, <- Hn.
Qed.

(** The validation hook, run once the new State is stored and its id is in
    the list: only the check of the editors can fail. *)
Lemma hook_after_new_state (h : Exploration.heap) (sid state_name : string) :
  (∀ x, x ∈ ids h → is_Some (State.get_by_id x (states h))) →
  _pre_put_hook (with_new_state h sid state_name) =
  (if negb (is_demo_id (length DEMO_EXPLORATIONS)
                       (Exploration.id (Exploration.self h)))
      && bool_decide (Exploration.editors (Exploration.self h) = [])
   then inl (ModelValidationError "This exploration has no editors.")
   else inr tt, with_new_state h sid state_name).
Proof.
  intros Hfind. set (h' := with_new_state h sid state_name).
  rewrite (_pre_put_hook_eq _ h' _ (is_demo_eq h')).
  rewrite bool_decide_false
    by (destruct h as [e d]; cbn; by destruct (Exploration.state_ids e)).
  assert (forallb
            (λ sid0, bool_decide (is_Some (State.get_by_id sid0 (states h'))))
            (ids h') = true) as ->.
  { apply forallb_true_elem. intros x Hx. apply bool_decide_eq_true.
    apply get_by_id_is_Some.
    destruct h as [e [ks ke]]. cbn in *.
    destruct (decide (sid = x)) as [->|Hne].
    - rewrite lookup_insert_eq. eauto.
    - rewrite lookup_insert_ne by done.
      apply get_by_id_is_Some, Hfind.
      apply elem_of_app in Hx as [Hx|Hx]; [done|].
      apply list_elem_of_singleton in Hx. congruence. }
  destruct h as [e d]. reflexivity.
Qed.

(** [add_state], as a function of the heap. *)
Lemma add_state_eq (state_name : string) (state_id : option string)
    (h : Exploration.heap) :
  add_state state_name state_id h =
  match List.find (λ sid, negb (resolves (states h) sid)) (ids h) with
  | Some bad => (inl (State.not_found bad), h)
  | None =>
      if existsb (state_named (states h) state_name) (ids h)
      then (inl (duplicate_state_name state_name), h)
      else
        let sid := new_state_id State_get_new_id h state_name state_id in
        let h' := with_new_state h sid state_name in
        if negb (is_demo_id (length DEMO_EXPLORATIONS)
                            (Exploration.id (Exploration.self h)))
           && bool_decide (Exploration.editors (Exploration.self h) = [])
        then (inl (ModelValidationError "This exploration has no editors."),
              h')
        else (inr {| State.id := sid; State.name := state_name |},
              committed h')
  end.
Proof.
  unfold Exploration.add_state.
  rewrite bind_unfold, _has_state_named_eq.
  destruct (List.find _ _) as [bad|] eqn:Hfind; [reflexivity|].
  destruct (existsb _ _) eqn:Hdup; [reflexivity|].
  rewrite find_unresolved_None in Hfind.
  set (sid := new_state_id State_get_new_id h state_name state_id).
  assert (Hsid : ∀ (B : Type) (f : string → M Exploration.heap B),
    (match state_id with
     | Some s =>
         if nonempty s then mret s
         else gets (λ h0, State_get_new_id (states h0) state_name)
     | None => gets (λ h0, State_get_new_id (states h0) state_name)
     end ≫= f) h = f sid h).
  { intros B f. unfold sid, new_state_id.
    destruct state_id as [s|]; [destruct (nonempty s)|]; reflexivity. }
  rewrite Hsid. cbv zeta.
  set (h' := with_new_state h sid state_name).
  pose proof (hook_after_new_state h sid state_name Hfind) as Hput.
  fold h' in Hput.
  destruct h as [e [ks ke]].
  unfold Exploration.put, Exploration.on_State_kind, State.put.
  cbn [modify fst snd]. rewrite bind_unfold. cbn [fst snd].
  rewrite modify_bind.
  change (Exploration.with_self _ _) with h'.
  rewrite bind_unfold, bind_unfold, Hput.
  destruct (negb _ && _); reflexivity.
Qed.

Lemma not_found_is_not_duplicate (bad state_name : string) :
  State.not_found bad ≠ duplicate_state_name state_name.
Proof. intros H. cbv in H. discriminate H. Qed.

(** The facts about the heap that a successful [add_state] leaves. *)
Lemma committed_with_new_state (h : Exploration.heap) (sid state_name : string) :
  let h' := committed (with_new_state h sid state_name) in
  State.get_by_id sid (states h') =
    Some {| State.id := sid; State.name := state_name |} ∧
  (∀ other, other ≠ sid → states h' !! other = states h !! other) ∧
  ids h' = ids h ++ [sid] ∧
  Exploration.editors (Exploration.self h') =
    Exploration.editors (Exploration.self h) ∧
  explorations h' !! Exploration.id (Exploration.self h) =
    Some (Exploration.self h').
Proof.
  destruct h as [e [ks ke]]. cbn. unfold State.get_by_id.
  rewrite !lookup_insert_eq. repeat split; try done.
  intros other Hne. by rewrite lookup_insert_ne.
Qed.

(** C3, amended. [add_state] raises when the exploration has a state of that
    name.  When it has none, every state id of the exploration resolves, and
    the exploration is a demo or has an editor, it stores a new State of that
    name under the id given (or a new id when the id given is [None] or
    empty), puts that id at the end of [state_ids], stores the exploration
    and returns the new State. *)
Theorem add_state_adds (h : Exploration.heap) (state_name : string)
    (state_id : option string) :
  (contains_state_named h state_name →
   ∃ e, raises (add_state state_name state_id) h e) ∧
  ((∀ sid, sid ∈ ids h → is_Some (State.get_by_id sid (states h))) →
   ¬ contains_state_named h state_name →
   returns is_demo h true ∨ Exploration.editors (Exploration.self h) ≠ [] →
   let sid := new_state_id State_get_new_id h state_name state_id in
   let new_state := {| State.id := sid; State.name := state_name |} in
   ∃ h', add_state state_name state_id h = (inr new_state, h') ∧
         h' = committed (with_new_state h sid state_name) ∧
         State.get_by_id sid (states h') = Some new_state ∧
         ids h' = ids h ++ [sid] ∧
         explorations h' !! Exploration.id (Exploration.self h) =
           Some (Exploration.self h')).
Proof.
  split.
  - intros Hdup%existsb_state_named. unfold raises. rewrite add_state_eq.
    destruct (List.find _ _); [eauto|]. rewrite Hdup. eauto.
  - intros Hres%find_unresolved_None Hnodup Hedit sid new_state.
    rewrite add_state_eq, Hres.
    destruct (existsb _ _) eqn:Hdup.
    { exfalso. by apply Hnodup, existsb_state_named. }
    cbv zeta. fold sid.
    assert (negb (is_demo_id (length DEMO_EXPLORATIONS)
                             (Exploration.id (Exploration.self h)))
            && bool_decide (Exploration.editors (Exploration.self h) = [])
            = false) as ->.
    { destruct Hedit as [Hd|He].
      - unfold returns in Hd. rewrite is_demo_eq in Hd.
        injection Hd as ->. reflexivity.
      - rewrite (bool_decide_false _ He). apply andb_false_r. }
    eexists. split; [reflexivity|]. split; [reflexivity|].
    pose proof (committed_with_new_state h sid state_name) as H.
    cbv zeta in H. tauto.
Qed.

(** C4. When the exploration has a state of the given name (and its state
    ids resolve), [add_state] raises the duplicate-name exception and the heap
    is the one it started from: the entity in memory and both kinds of the
    datastore are unchanged.  Whenever [add_state] raises that exception, the
    heap is unchanged. *)
Theorem add_state_duplicate_changes_nothing (h : Exploration.heap)
    (state_name : string) (state_id : option string) :
  ((∀ sid, sid ∈ ids h → is_Some (State.get_by_id sid (states h))) →
   contains_state_named h state_name →
   add_state state_name state_id h =
   (inl (duplicate_state_name state_name), h)) ∧
  (raises (add_state state_name state_id) h
          (duplicate_state_name state_name) →
   contains_state_named h state_name ∧
   (add_state state_name state_id h).2 = h).
Proof.
  unfold raises. rewrite add_state_eq. split.
  - intros Hres%find_unresolved_None Hdup%existsb_state_named.
    by rewrite Hres, Hdup.
  - destruct (List.find _ _) as [bad|].
    { intros H. cbn [fst] in H. exfalso.
      apply (not_found_is_not_duplicate bad state_name). congruence. }
    destruct (existsb _ _) eqn:Hdup.
    { intros _. split; [by apply existsb_state_named | done]. }
    cbv zeta. destruct (negb _ && _); cbn; intros [=].
Qed.
End StateList.

(** ** Deletion *)

Section Deletion.
Local Abbreviation states h :=
  (Exploration.State_kind (Exploration.ndb h)).
Local Abbreviation explorations h :=
  (Exploration.Exploration_kind (Exploration.ndb h)).
Local Abbreviation ids h := (Exploration.state_ids (Exploration.self h)).

(** The body of the loop of [delete]. *)
Local Abbreviation delete_state state_id :=
  (entity ← Exploration.on_State_kind (State.get state_id true);
   match entity with
   | Some s => Exploration.on_State_kind (State.delete s)
   | None => raise (AttributeError "'NoneType' object has no attribute")
   end).

Lemma delete_state_eq (sid : string) (h : Exploration.heap) :
  delete_state sid h =
  if resolves (states h) sid
  then (inr tt, Exploration.with_State_kind (base.delete sid) h)
  else (inl (State.not_found sid), h).
Proof.
  rewrite bind_unfold, get_strict. unfold resolves, State.get_by_id.
  destruct h as [e [ks ke]]. cbn [Exploration.ndb Exploration.State_kind].
  destruct (ks !! sid) as [n|]; cbn [fmap option_fmap option_map].
  - rewrite bool_decide_true by eauto. reflexivity.
  - rewrite bool_decide_false by (by intros [? ?]). reflexivity.
Qed.

Lemma delete_loop_returns (l : list string) : ∀ h : Exploration.heap,
  NoDup l →
  (∀ sid, sid ∈ l → is_Some (State.get_by_id sid (states h))) →
  for_each l (λ sid, delete_state sid) h =
  (inr tt, Exploration.with_State_kind (delete_states l) h).
Proof.
  induction l as [|sid l IH]; intros h Hnd Hres.
  - destruct h as [e [ks ke]]. reflexivity.
  - apply NoDup_cons in Hnd as [Hnotin Hnd].
    cbn [for_each]. rewrite (bind_unfold (delete_state sid)), delete_state_eq.
    unfold resolves. rewrite bool_decide_true by (apply Hres; by left).
    rewrite IH; [by destruct h as [e [ks ke]]|done|].
    intros x Hx. apply get_by_id_is_Some.
    destruct h as [e [ks ke]]. cbn.
    rewrite lookup_delete_ne by (intros ->; done).
    apply get_by_id_is_Some, Hres. by right.
Qed.

(** Whatever the loop does, it only touches the State kind, and the only
    exception it raises is the one of a state id that does not resolve. *)
Lemma delete_loop_frame (l : list string) : ∀ h : Exploration.heap,
  (∃ k, (for_each l (λ sid, delete_state sid) h).2 =
        Exploration.with_State_kind (λ _, k) h) ∧
  (∀ e, (for_each l (λ sid, delete_state sid) h).1 = inl e →
        ∃ bad, bad ∈ l ∧ e = State.not_found bad).
Proof.
  induction l as [|sid l IH]; intros h.
  - split; [|by intros e [=]].
    exists (states h). by destruct h as [e [ks ke]].
  - cbn [for_each]. rewrite (bind_unfold (delete_state sid)), delete_state_eq.
    destruct (resolves _ _).
    + destruct (IH (Exploration.with_State_kind (base.delete sid) h))
        as [[k Hk] He].
      split.
      * exists k. rewrite Hk. by destruct h as [e [ks ke]].
      * intros e [bad [Hbad ->]]%He. exists bad. split; [by right | done].
    + split.
      * exists (states h). by destruct h as [e [ks ke]].
      * intros e [= <-]. exists sid. split; [by left | done].
Qed.

Lemma lookup_delete_states (l : list string) : ∀ (k : State.kind) (sid : string),
  delete_states l k !! sid = if decide (sid ∈ l) then None else k !! sid.
Proof.
  unfold delete_states.
  induction l as [|x l IH]; intros k sid; cbn [foldl].
  - rewrite decide_False by apply not_elem_of_nil. done.
  - rewrite IH. destruct (decide (sid ∈ l)) as [Hin|Hnotin].
    + rewrite decide_True by (by right). done.
    + destruct (decide (x = sid)) as [->|Hne].
      * rewrite decide_True by (by left). apply lookup_delete_eq.
      * rewrite decide_False.
        -- by apply lookup_delete_ne.
        -- intros [?|?]%elem_of_cons; congruence.
Qed.

(** What [delete] does when the state ids of the exploration are pairwise
    distinct and each resolves to a stored State: it returns, after which none
    of these ids resolves, the other States are as they were, and the record
    of the exploration is gone from the datastore. *)
Theorem delete_removes_states_and_record (h : Exploration.heap) :
  NoDup (ids h) →
  (∀ sid, sid ∈ ids h → is_Some (State.get_by_id sid (states h))) →
  ∃ h', Exploration.delete h = (inr tt, h') ∧
        Exploration.self h' = Exploration.self h ∧
        (∀ sid, sid ∈ ids h → State.get_by_id sid (states h') = None) ∧
        (∀ sid, sid ∉ ids h → states h' !! sid = states h !! sid) ∧
        explorations h' =
          base.delete (Exploration.id (Exploration.self h)) (explorations h).
Proof.
  intros Hnd Hres. unfold Exploration.delete. step. cbn [compose].
  rewrite bind_unfold, (delete_loop_returns _ h Hnd Hres).
  unfold Exploration.super_delete, modify.
  eexists. split; [reflexivity|].
  destruct h as [e [ks ke]]. cbn. split; [done|]. split; [|split; [|done]].
  - intros sid Hsid. unfold State.get_by_id.
    rewrite lookup_delete_states, decide_True by done. done.
  - intros sid Hsid. rewrite lookup_delete_states, decide_False by done. done.
Qed.

(** When [delete] raises, it is because a state id did not resolve when its
    turn came, and the record of the exploration is still in the
    datastore. *)
Lemma delete_raises_keeps_record (h : Exploration.heap) (e : exception) :
  raises Exploration.delete h e →
  (∃ bad, bad ∈ ids h ∧ e = State.not_found bad) ∧
  explorations (Exploration.delete h).2 = explorations h.
Proof.
  unfold raises, Exploration.delete. step. cbn [compose].
  rewrite bind_unfold.
  destruct (delete_loop_frame (ids h) h) as [[k Hk] He].
  destruct (for_each (ids h) (λ sid, delete_state sid) h) as [[e'|[]] h'] eqn:Hloop.
  - cbn [fst snd] in *. intros [= ->]. split; [by apply He|].
    rewrite Hk. by destruct h as [x [ks ke]].
  - by intros [=].
Qed.
End Deletion.

(** ** Exceptions, method by method *)

Section Exceptions.
Context (DEMO_EXPLORATIONS : list string).
Context (State_get_new_id : State.kind → string → string).

Local Abbreviation _pre_put_hook :=
  (Exploration._pre_put_hook DEMO_EXPLORATIONS).
Local Abbreviation put := (Exploration.put DEMO_EXPLORATIONS).
Local Abbreviation add_state :=
  (Exploration.add_state DEMO_EXPLORATIONS State_get_new_id).
Local Abbreviation call :=
  (Exploration.call DEMO_EXPLORATIONS State_get_new_id).

Lemma raises_then_ret {S A B} (m : M S A) (f : A → B) (s : S) (e : exception) :
  raises (x ← m; mret (f x)) s e → raises m s e.
Proof.
  unfold raises. rewrite bind_unfold.
  destruct (m s) as [[e'|x] s']; [by intros [= ->] | by intros [=]].
Qed.

Lemma then_ret_state {S A B} (m : M S A) (f : A → B) (s : S) :
  ((x ← m; mret (f x)) s).2 = (m s).2.
Proof. rewrite bind_unfold. by destruct (m s) as [[e'|x] s']. Qed.

Lemma hook_keeps_heap (h : Exploration.heap) : (_pre_put_hook h).2 = h.
Proof.
  destruct (is_demo_total DEMO_EXPLORATIONS h) as [demo Hdemo].
  by rewrite (_pre_put_hook_eq _ h demo Hdemo).
Qed.

Lemma put_raises (h : Exploration.heap) (e : exception) :
  raises put h e → raises _pre_put_hook h e.
Proof.
  unfold raises, Exploration.put. rewrite bind_unfold.
  destruct (_pre_put_hook h) as [[e'|x] s']; [by intros [= ->]|].
  unfold modify. by intros [=].
Qed.

Lemma put_raises_keeps_heap (h : Exploration.heap) (e : exception) :
  raises put h e → (put h).2 = h.
Proof.
  unfold raises, Exploration.put. rewrite bind_unfold.
  pose proof (hook_keeps_heap h) as Hk.
  destruct (_pre_put_hook h) as [[e'|x] s']; [done|].
  unfold modify. by intros [=].
Qed.

Lemma hook_raises (h : Exploration.heap) (e : exception) :
  raises _pre_put_hook h e → ∃ msg, e = ModelValidationError msg.
Proof.
  destruct (is_demo_total DEMO_EXPLORATIONS h) as [demo Hdemo].
  unfold raises. rewrite (_pre_put_hook_eq _ h demo Hdemo). cbn [fst].
  destruct (bool_decide _); [intros [= <-]; eauto|].
  destruct (forallb _ _); [|intros [= <-]; eauto].
  destruct (negb demo && _); [intros [= <-]; eauto | by intros [=]].
Qed.

Lemma init_state_raises (h : Exploration.heap) (e : exception) :
  raises Exploration.init_state h e →
  e = IndexError "list index out of range" ∨ ∃ bad, e = State.not_found bad.
Proof.
  unfold raises, Exploration.init_state. step. cbn [compose].
  destruct (Exploration.state_ids _) as [|sid l]; cbn [first_item].
  - step. intros [= <-]. by left.
  - step. rewrite get_strict.
    destruct (State.get_by_id _ _); intros [= <-]. right. eauto.
Qed.

Lemma is_owned_by_raises (user : option User.t) (h : Exploration.heap)
    (e : exception) :
  raises (Exploration.is_owned_by user) h e →
  e = IndexError "list index out of range" ∧ ∃ u, user = Some u.
Proof.
  unfold raises, Exploration.is_owned_by.
  destruct user as [u|]; [|by intros [=]].
  step. cbn [compose].
  destruct (Exploration.editors _); cbn [first_item].
  - step. intros [= <-]. eauto.
  - repeat step. by intros [=].
Qed.

Lemma add_state_raises (state_name : string) (state_id : option string)
    (h : Exploration.heap) (e : exception) :
  raises (add_state state_name state_id) h e →
  e = duplicate_state_name state_name ∨
  (∃ bad, e = State.not_found bad) ∨
  (e = ModelValidationError "This exploration has no editors." ∧
   raises _pre_put_hook (add_state state_name state_id h).2 e).
Proof.
  unfold raises. rewrite add_state_eq.
  destruct (List.find _ _) as [bad|] eqn:Hfind.
  { intros [= <-]. right. left. eauto. }
  destruct (existsb _ _); [intros [= <-]; by left|].
  cbv zeta. destruct (negb _ && _) eqn:Hed; [|by intros [=]].
  intros [= <-]. right. right. split; [done|]. cbn [snd].
  rewrite find_unresolved_None in Hfind.
  rewrite (hook_after_new_state _ _ _ _ Hfind), Hed. reflexivity.
Qed.

(** C2, amended. Every validation exception comes from the validation hook,
    raised by the hook itself or by [put] or [add_state] when they run it,
    and the hook raises nothing else.  The other exceptions are the generic
    exception of [add_state] for a name that is taken, the generic exception
    of a strict State lookup in [delete], [init_state], [_has_state_named]
    and [add_state], and the [IndexError] of [init_state] and [is_owned_by]
    on an empty list.  No other method raises. *)
Theorem exceptions_by_method (m : Exploration.method) (h : Exploration.heap)
    (e : exception) :
  raises (call m) h e →
  match e with
  | ModelValidationError _ =>
      (m = Exploration.call_pre_put_hook ∨ m = Exploration.call_put ∨
       ∃ state_name state_id,
         m = Exploration.call_add_state state_name state_id) ∧
      raises _pre_put_hook (call m h).2 e
  | Exception _ =>
      (∃ state_name state_id,
         m = Exploration.call_add_state state_name state_id ∧
         e = duplicate_state_name state_name) ∨
      ((m = Exploration.call_delete ∨ m = Exploration.call_init_state ∨
        (∃ state_name, m = Exploration.call_has_state_named state_name) ∨
        (∃ state_name state_id,
           m = Exploration.call_add_state state_name state_id)) ∧
       ∃ bad, e = State.not_found bad)
  | IndexError _ =>
      m = Exploration.call_init_state ∨
      ∃ u, m = Exploration.call_is_owned_by (Some u)
  | ValueError _ | AttributeError _ => False
  end.
Proof.
  destruct m; unfold Exploration.call; intros He;
    try apply raises_then_ret in He.
  - pose proof He as [msg ->]%hook_raises. split; [by left|].
    by rewrite then_ret_state, hook_keeps_heap.
  - pose proof (put_raises_keeps_heap _ _ He) as Hk.
    apply put_raises in He.
    pose proof He as [msg ->]%hook_raises. split; [by right; left|].
    by rewrite then_ret_state, Hk.
  - apply delete_raises_keeps_record in He as [(bad & _ & ->) _].
    right. split; [by left | eauto].
  - apply init_state_raises in He as [->|[bad ->]].
    + by left.
    + right. split; [by right; left | eauto].
  - unfold raises in He. by rewrite is_demo_eq in He.
  - unfold raises in He.
    rewrite _has_state_named_eq in He.
    destruct (List.find _ _) as [bad|]; [|done].
    injection He as <-. right. split; [right; right; left; eauto | eauto].
  - unfold raises, Exploration.is_editable_by in He.
    by destruct user.
  - apply is_owned_by_raises in He as [-> [u ->]]. right. eauto.
  - apply add_state_raises in He as [->|[[bad ->]|[-> Hh]]].
    + left. eauto.
    + right. split; [right; right; right; eauto | eauto].
    + split; [right; right; eauto|]. by rewrite then_ret_state.
  - done.
  - done.
  - done.
  - done.
  - done.
Qed.
End Exceptions.

(** ** The model on sample data *)

Example isdigit_examples :
  isdigit "007" = true ∧ isdigit "" = false ∧ isdigit "4a" = false ∧
  decimal "007" = 7%Z ∧ decimal "12" = 12%Z.
Proof. repeat split. Qed.

Example is_demo_examples :
  (Exploration.is_demo three_demos pitch_heap).1 = inr true ∧
  (Exploration.is_demo three_demos algebra_heap).1 = inr false ∧
  (Exploration.is_demo [] pitch_heap).1 = inr false.
Proof. repeat split. Qed.

Example hook_examples :
  (Exploration._pre_put_hook three_demos algebra_heap).1 = inr tt ∧
  (Exploration._pre_put_hook three_demos pitch_heap).1 = inr tt ∧
  (Exploration._pre_put_hook three_demos draft_heap).1 =
    inl (ModelValidationError "This exploration has no states.") ∧
  (Exploration._pre_put_hook [] pitch_heap).1 =
    inl (ModelValidationError "This exploration has no editors.").
Proof. repeat split. Qed.

Example query_examples :
  let k := <["x7Kq" := algebra]> (<["1" := pitch]> ∅) in
  Query.fetch k Exploration.get_public_explorations = [pitch] ∧
  Query.fetch k (Exploration.get_viewable_explorations bob) =
    [pitch; algebra] ∧
  Exploration.get_exploration_count k = 2.
Proof. vm_compute. repeat split. Qed.

Lemma algebra_states_resolve (sid : string) :
  sid ∈ Exploration.state_ids (Exploration.self algebra_heap) →
  is_Some (State.get_by_id sid
             (Exploration.State_kind (Exploration.ndb algebra_heap))).
Proof.
  intros [->|[->|[]%elem_of_nil]%elem_of_cons]%elem_of_cons;
    vm_compute; eauto.
Qed.

(** The stored exploration passes the validation, and [put] stores it. *)
Lemma pre_put_hook_validates_witness :
  Exploration._pre_put_hook three_demos algebra_heap = (inr tt, algebra_heap) ∧
  Exploration.put three_demos algebra_heap =
  (inr tt,
   Exploration.with_Exploration_kind
     (<[Exploration.id (Exploration.self algebra_heap) :=
          Exploration.self algebra_heap]>) algebra_heap).
Proof.
  apply (pre_put_hook_validates three_demos algebra_heap).
  - discriminate.
  - exact algebra_states_resolve.
  - right. discriminate.
Defined.

(** [add_state] with a name that is taken raises a generic exception, which
    is not a validation exception. *)
Lemma only_validation_errors_counterexample :
  ¬ only_validation_errors three_demos id_of_name.
Proof.
  intros H.
  specialize (H (Exploration.call_add_state "Intro" None) algebra_heap
                (duplicate_state_name "Intro")).
  discriminate H. reflexivity.
Qed.

Lemma exceptions_by_method_witness :
  (∃ state_name state_id,
     Exploration.call_add_state "Intro" None =
       Exploration.call_add_state state_name state_id ∧
     duplicate_state_name "Intro" = duplicate_state_name state_name) ∨
  ((Exploration.call_add_state "Intro" None = Exploration.call_delete ∨
    Exploration.call_add_state "Intro" None = Exploration.call_init_state ∨
    (∃ state_name,
       Exploration.call_add_state "Intro" None =
         Exploration.call_has_state_named state_name) ∨
    (∃ state_name state_id,
       Exploration.call_add_state "Intro" None =
         Exploration.call_add_state state_name state_id)) ∧
   ∃ bad, duplicate_state_name "Intro" = State.not_found bad).
Proof.
  apply (exceptions_by_method three_demos id_of_name
           (Exploration.call_add_state "Intro" None) algebra_heap
           (duplicate_state_name "Intro")).
  reflexivity.
Defined.

(** A new exploration that has no editor yet has no state named "Intro", and
    yet [add_state] raises: the validation run by [put] rejects it. *)
Lemma add_state_as_claimed_counterexample :
  ¬ add_state_as_claimed three_demos id_of_name draft_heap "Intro" None.
Proof.
  intros [_ H]. destruct H as (new_state & h' & Hadd & _).
  - intros (sid & s & []%elem_of_nil & _).
  - rewrite add_state_eq in Hadd. discriminate Hadd.
Qed.

(** What [add_state] does on the new exploration: the State is stored and
    listed in memory, the exploration is not stored. *)
Example add_state_draft :
  Exploration.add_state three_demos id_of_name "Intro" None draft_heap =
  (inl (ModelValidationError "This exploration has no editors."),
   with_new_state draft_heap "id-Intro" "Intro").
Proof. rewrite add_state_eq. reflexivity. Qed.

(** An empty id counts as no id. *)
Example add_state_empty_id :
  (Exploration.add_state three_demos id_of_name "Summary" (Some "")
     algebra_heap).1 =
  inr {| State.id := "id-Summary"; State.name := "Summary" |}.
Proof. rewrite add_state_eq. reflexivity. Qed.

Lemma add_state_adds_witness :
  ∃ h', Exploration.add_state three_demos id_of_name "Summary" None
          algebra_heap =
        (inr {| State.id := "id-Summary"; State.name := "Summary" |}, h') ∧
        h' = committed (with_new_state algebra_heap "id-Summary" "Summary") ∧
        State.get_by_id "id-Summary"
          (Exploration.State_kind (Exploration.ndb h')) =
          Some {| State.id := "id-Summary"; State.name := "Summary" |} ∧
        Exploration.state_ids (Exploration.self h') =
          ["s1"; "s2"; "id-Summary"] ∧
        Exploration.Exploration_kind (Exploration.ndb h') !! "x7Kq" =
          Some (Exploration.self h').
Proof.
  apply (add_state_adds three_demos id_of_name algebra_heap "Summary" None).
  - exact algebra_states_resolve.
  - intros Hc. apply existsb_state_named in Hc. discriminate Hc.
  - right. discriminate.
Defined.

Lemma algebra_contains_Intro : contains_state_named algebra_heap "Intro".
Proof. by apply existsb_state_named. Qed.

Lemma add_state_duplicate_changes_nothing_witness :
  Exploration.add_state three_demos id_of_name "Intro" (Some "s3")
    algebra_heap =
  (inl (duplicate_state_name "Intro"), algebra_heap).
Proof.
  apply (add_state_duplicate_changes_nothing three_demos id_of_name
           algebra_heap "Intro" (Some "s3")).
  - exact algebra_states_resolve.
  - exact algebra_contains_Intro.
Defined.

(** With a state id listed twice, [delete] raises at the second occurrence:
    the State is gone by then.  The record of the exploration stays. *)
Lemma delete_as_claimed_counterexample : ¬ delete_as_claimed twice_heap.
Proof.
  intros (h' & Hdel & _).
  assert (Hr : raises Exploration.delete twice_heap (State.not_found "s1"))
    by reflexivity.
  unfold raises in Hr. rewrite Hdel in Hr. discriminate Hr.
Qed.

(** C5. [delete] does not delete an exploration that lists a state id twice.
    Such an exploration is what [add_state] leaves when it is given the id of
    a state that is already listed, and the validation hook accepts it.  On
    it, [delete] removes the State at the first occurrence of the id, raises
    at the second, where the id no longer resolves, and never reaches the
    deletion of the record: the States are gone and the exploration is still
    stored. *)
Theorem delete_fails_on_repeated_state_id :
  Exploration.add_state three_demos id_of_name "Quiz" (Some "s1") once_heap =
    (inr {| State.id := "s1"; State.name := "Quiz" |}, twice_heap) ∧
  Exploration._pre_put_hook three_demos twice_heap = (inr tt, twice_heap) ∧
  raises Exploration.delete twice_heap (State.not_found "s1") ∧
  State.get_by_id "s1"
    (Exploration.State_kind
       (Exploration.ndb (Exploration.delete twice_heap).2)) = None ∧
  Exploration.Exploration_kind
    (Exploration.ndb (Exploration.delete twice_heap).2) !! "tw" = Some twice.
Proof.
  split; [|split; [|repeat split]].
  - rewrite add_state_eq. reflexivity.
  - rewrite (_pre_put_hook_eq three_demos twice_heap false); reflexivity.
Qed.

Example delete_twice :
  (Exploration.delete twice_heap).1 = inl (State.not_found "s1") ∧
  Exploration.Exploration_kind (Exploration.ndb (Exploration.delete twice_heap).2)
    !! "tw" = Some twice ∧
  Exploration.State_kind (Exploration.ndb (Exploration.delete twice_heap).2)
    !! "s1" = None.
Proof. repeat split. Qed.

Lemma algebra_state_ids_NoDup :
  NoDup (Exploration.state_ids (Exploration.self algebra_heap)).
Proof. apply (bool_decide_unpack _). reflexivity. Qed.

Lemma delete_removes_states_and_record_witness :
  ∃ h', Exploration.delete algebra_heap = (inr tt, h') ∧
        Exploration.self h' = algebra ∧
        (∀ sid, sid ∈ ["s1"; "s2"] →
                State.get_by_id sid
                  (Exploration.State_kind (Exploration.ndb h')) = None) ∧
        (∀ sid, sid ∉ ["s1"; "s2"] →
                Exploration.State_kind (Exploration.ndb h') !! sid =
                Exploration.State_kind (Exploration.ndb algebra_heap) !! sid) ∧
        Exploration.Exploration_kind (Exploration.ndb h') =
          base.delete "x7Kq"
            (Exploration.Exploration_kind (Exploration.ndb algebra_heap)).
Proof.
  apply (delete_removes_states_and_record algebra_heap).
  - exact algebra_state_ids_NoDup.
  - exact algebra_states_resolve.
Defined.

Lemma is_owned_by_first_editor_witness :
  ∃ v, Exploration.is_owned_by (Some alice) algebra_heap =
         (inr v, algebra_heap) ∧
       (Exploration.truthy v = true ↔
        ∃ u, Some alice = Some u ∧
             head (Exploration.editors (Exploration.self algebra_heap)) =
               Some u).
Proof.
  apply (is_owned_by_first_editor algebra_heap (Some alice)).
  discriminate.
Defined.

Lemma is_owned_by_partial_is_editable_by_total_witness :
  Exploration.is_owned_by (Some alice) pitch_heap =
  (inl (IndexError "list index out of range"), pitch_heap).
Proof.
  apply (proj1 is_owned_by_partial_is_editable_by_total pitch_heap alice).
  reflexivity.
Defined.

(** * Further properties of the model *)

(** ** Demo explorations, the first state, validation and saving *)

Lemma decimal_fold_nonneg (l : list ascii) : ∀ acc : Z,
  forallb isdigit_char l = true → (0 ≤ acc)%Z →
  (0 ≤ fold_left (λ a c, 10 * a + digit_value c) l acc)%Z.
Proof.
  induction l as [|c l IH]; intros acc Hall Hacc; [done|].
  cbn in Hall. apply andb_true_iff in Hall as [Hc Hl].
  cbn [fold_left]. apply IH; [done|].
  unfold isdigit_char in Hc. apply andb_true_iff in Hc as [Hlo _].
  apply Nat.leb_le in Hlo. unfold digit_value. lia.
Qed.

Lemma decimal_nonneg (s : string) : isdigit s = true → (0 ≤ decimal s)%Z.
Proof.
  unfold isdigit, decimal. destruct s as [|c s]; [done|].
  intros H. by apply decimal_fold_nonneg.
Qed.

Section Coverage.
Context (DEMO_EXPLORATIONS : list string).
Context (State_get_new_id : State.kind → string → string).

Local Abbreviation is_demo := (Exploration.is_demo DEMO_EXPLORATIONS).
Local Abbreviation _pre_put_hook :=
  (Exploration._pre_put_hook DEMO_EXPLORATIONS).
Local Abbreviation put := (Exploration.put DEMO_EXPLORATIONS).
Local Abbreviation add_state :=
  (Exploration.add_state DEMO_EXPLORATIONS State_get_new_id).
Local Abbreviation states h :=
  (Exploration.State_kind (Exploration.ndb h)).
Local Abbreviation explorations h :=
  (Exploration.Exploration_kind (Exploration.ndb h)).
Local Abbreviation ids h := (Exploration.state_ids (Exploration.self h)).
Local Abbreviation editors h := (Exploration.editors (Exploration.self h)).

(** X1. [is_demo] never raises and leaves the heap as it is: [int] is only
    reached for a string of digits.  It is true exactly when the id is a
    non-empty string of decimal digits whose value is smaller than the
    number of demo explorations; the test [0 <= int(self.id)] never decides
    anything. *)
Theorem is_demo_by_id (h : Exploration.heap) :
  ∃ b : bool,
    is_demo h = (inr b, h) ∧
    (b = true ↔
     isdigit (Exploration.id (Exploration.self h)) = true ∧
     (decimal (Exploration.id (Exploration.self h))
      < Z.of_nat (length DEMO_EXPLORATIONS))%Z).
Proof.
  eexists. split; [apply is_demo_eq|].
  unfold is_demo_id. rewrite !andb_true_iff, Z.leb_le, Z.ltb_lt.
  split; [tauto|]. intros [Hd Hlt]. split; [done|]. split; [|done].
  by apply decimal_nonneg.
Qed.

(** X2. [init_state] leaves the heap as it is.  It raises [IndexError] exactly
    when the exploration has no state id, raises the exception of the strict
    lookup exactly when the first state id does not resolve, and otherwise
    returns the State stored under the first state id. *)
Theorem init_state_first (h : Exploration.heap) :
  (Exploration.init_state h).2 = h ∧
  (raises Exploration.init_state h (IndexError "list index out of range") ↔
   ids h = []) ∧
  (∀ sid, head (ids h) = Some sid →
     match states h !! sid with
     | Some n =>
         returns Exploration.init_state h
           (Some {| State.id := sid; State.name := n |})
     | None => raises Exploration.init_state h (State.not_found sid)
     end).
Proof.
  unfold raises, returns, Exploration.init_state. rewrite gets_bind.
  cbn [compose]. destruct (ids h) as [|sid l]; cbn [first_item head].
  - step. split; [done|]. split; [done|]. by intros sid [=].
  - step. rewrite get_strict. unfold State.get_by_id. split; [done|]. split.
    + cbn [fst]. split; [|done].
      destruct (states h !! sid); cbn; intros [=].
    + intros ? [= <-]. by destruct (states h !! sid).
Qed.

(** X3. An exploration that passes the validation has a first state:
    [init_state] returns the State stored under the first of its state
    ids. *)
Theorem validated_has_init_state (h : Exploration.heap) :
  returns _pre_put_hook h tt →
  ∃ sid n, head (ids h) = Some sid ∧ states h !! sid = Some n ∧
           Exploration.init_state h =
           (inr (Some {| State.id := sid; State.name := n |}), h).
Proof.
  unfold returns.
  rewrite (_pre_put_hook_eq _ h _ (is_demo_eq DEMO_EXPLORATIONS h)).
  cbn [fst]. case_bool_decide as Hids; [by intros [=]|].
  destruct (forallb _ _) eqn:Hall; [|by intros [=]]. intros _.
  rewrite forallb_true_elem in Hall.
  destruct (ids h) as [|sid l] eqn:Hl; [done|].
  assert (is_Some (states h !! sid)) as [n Hn].
  { apply get_by_id_is_Some. apply (bool_decide_eq_true_1 _).
    apply Hall. by left. }
  exists sid, n. split; [done|]. split; [done|].
  unfold Exploration.init_state. rewrite gets_bind. cbn [compose].
  rewrite Hl. cbn [first_item]. step. rewrite get_strict.
  unfold State.get_by_id. by rewrite Hn.
Qed.

(** X4. The validation hook reports the first check that fails: no state
    ids; otherwise a state id that does not resolve, with a message that does
    not name the id (its [%s] is never filled in); otherwise no editor on an
    exploration that is not a demo. *)
Theorem hook_reports_first_failure (h : Exploration.heap) (msg : string) :
  raises _pre_put_hook h (ModelValidationError msg) →
  (msg = "This exploration has no states." ∧ ids h = []) ∨
  (msg = "Invalid state_id %s." ∧ ids h ≠ [] ∧
   ∃ sid, sid ∈ ids h ∧ State.get_by_id sid (states h) = None) ∨
  (msg = "This exploration has no editors." ∧ ids h ≠ [] ∧
   (∀ sid, sid ∈ ids h → is_Some (State.get_by_id sid (states h))) ∧
   returns is_demo h false ∧ editors h = []).
Proof.
  unfold raises, returns.
  rewrite (_pre_put_hook_eq _ h _ (is_demo_eq DEMO_EXPLORATIONS h)).
  rewrite is_demo_eq. cbn [fst].
  case_bool_decide as Hids; [intros [= <-]; by left|].
  destruct (forallb _ _) eqn:Hall.
  - destruct (is_demo_id _ _); cbn [negb andb]; [by intros [=]|].
    case_bool_decide as Hed; [|by intros [=]].
    intros [= <-]. right. right. repeat split; try done.
    intros sid Hsid. rewrite forallb_true_elem in Hall.
    apply (bool_decide_eq_true_1 _). by apply Hall.
  - intros [= <-]. right. left. repeat split; try done.
    apply forallb_false_witness in Hall as (sid & Hsid & Hf).
    exists sid. split; [done|]. apply bool_decide_eq_false in Hf.
    destruct (State.get_by_id sid (states h)); [|done]. exfalso. eauto.
Qed.
End Coverage.

(** ** Queries and counting *)

Lemma filter_all_length {A} (l : list A) :
  length (List.filter (λ _, true) l) = length l.
Proof. induction l as [|x l IH]; [done|]. cbn. by rewrite IH. Qed.

Lemma filter_length_mono {A} (f g : A → bool) (l : list A) :
  (∀ x, f x = true → g x = true) →
  length (List.filter f l) ≤ length (List.filter g l).
Proof.
  intros Hfg. induction l as [|x l IH]; [done|]. cbn.
  destruct (f x) eqn:Hf.
  - rewrite (Hfg x Hf). cbn. lia.
  - destruct (g x); cbn; lia.
Qed.

Lemma get_exploration_count_size (k : gmap string Exploration.t) :
  Exploration.get_exploration_count k = size k.
Proof.
  unfold Exploration.get_exploration_count, Query.count, Query.fetch.
  cbn [Exploration.get_all_explorations Query.query Query.filters forallb].
  by rewrite filter_all_length, length_map, length_map_to_list.
Qed.

(** X6. [get_exploration_count] counts every stored exploration, public or
    not; the public explorations are at most as many as those a user can
    view, which are at most as many as all. *)
Theorem exploration_counts (k : gmap string Exploration.t) (user : User.t) :
  Exploration.get_exploration_count k = size k ∧
  Query.count k Exploration.get_public_explorations
    ≤ Query.count k (Exploration.get_viewable_explorations user) ∧
  Query.count k (Exploration.get_viewable_explorations user)
    ≤ Exploration.get_exploration_count k.
Proof.
  split; [apply get_exploration_count_size|].
  unfold Exploration.get_exploration_count, Query.count, Query.fetch.
  split; apply filter_length_mono; intros e; cbn; rewrite !andb_true_r.
  - unfold Query.OR. intros ->. done.
  - done.
Qed.


(** X8. For a user who edits none of the stored explorations, the
    explorations the user can view are the public ones, in the same
    order. *)
Theorem viewable_by_non_editor (k : gmap string Exploration.t)
    (user : User.t) :
  (∀ i e, k !! i = Some e → user ∉ Exploration.editors e) →
  Query.fetch k (Exploration.get_viewable_explorations user) =
  Query.fetch k Exploration.get_public_explorations.
Proof.
  intros Hnone. unfold Query.fetch. apply filter_ext_in.
  intros e He. cbn. f_equal. unfold Query.OR, Exploration.editors_eq.
  apply list_elem_of_In, list_elem_of_fmap in He as ([i x] & -> & Hix).
  apply elem_of_map_to_list in Hix.
  rewrite (bool_decide_false _ (Hnone _ _ Hix)). apply orb_false_r.
Qed.

Lemma viewable_by_non_editor_witness :
  Query.fetch two_explorations (Exploration.get_viewable_explorations carol) =
  Query.fetch two_explorations Exploration.get_public_explorations.
Proof.
  apply (viewable_by_non_editor two_explorations carol).
  intros i e Hi.
  assert (e = algebra ∨ e = pitch) as [->| ->].
  { unfold two_explorations in Hi.
    apply lookup_insert_Some in Hi as [[_ <-]|[_ Hi]]; [by left|].
    apply lookup_insert_Some in Hi as [[_ <-]|[_ Hi]]; [by right|].
    by rewrite lookup_empty in Hi. }
  - apply (bool_decide_unpack _). reflexivity.
  - apply (bool_decide_unpack _). reflexivity.
Defined.

(** ** Editors and owners *)

Lemma is_editable_by_eq (user : option User.t) (h : Exploration.heap) :
  Exploration.is_editable_by user h =
  (inr (match user with
        | Some u => Some (bool_decide (u ∈ Exploration.editors (Exploration.self h)))
        | None => None
        end), h).
Proof. by destruct user. Qed.

Lemma is_owned_by_eq (user : option User.t) (h : Exploration.heap) :
  Exploration.is_owned_by user h =
  (match user with
   | Some u =>
       match Exploration.editors (Exploration.self h) with
       | owner :: _ => inr (Some (bool_decide (u = owner)))
       | [] => inl (IndexError "list index out of range")
       end
   | None => inr None
   end, h).
Proof.
  destruct user as [u|]; [|done]. unfold Exploration.is_owned_by.
  step. cbn [compose].
  by destruct (Exploration.editors (Exploration.self h)).
Qed.

(** X9. The owner can edit: whenever [is_owned_by] returns something true
    for a user, so does [is_editable_by]. *)
Theorem owner_can_edit (h : Exploration.heap) (user : option User.t)
    (v : option bool) :
  returns (Exploration.is_owned_by user) h v →
  Exploration.truthy v = true →
  ∃ w, returns (Exploration.is_editable_by user) h w ∧
       Exploration.truthy w = true.
Proof.
  unfold returns. rewrite is_owned_by_eq, is_editable_by_eq. cbn [fst].
  destruct user as [u|]; [|by intros [= <-]].
  destruct (Exploration.editors (Exploration.self h)) as [|owner l];
    [by intros [=]|].
  intros [= <-] Hv. cbn in Hv. apply bool_decide_eq_true in Hv as ->.
  eexists. split; [reflexivity|]. cbn. apply bool_decide_eq_true. by left.
Qed.

Lemma owner_can_edit_witness :
  ∃ w, returns (Exploration.is_editable_by (Some alice)) algebra_heap w ∧
       Exploration.truthy w = true.
Proof.
  apply (owner_can_edit algebra_heap (Some alice) (Some true)); reflexivity.
Defined.

(** X10. After [add_editor], the new editor can edit, and so can everyone who
    could before. *)
Theorem add_editor_grants_edit (h : Exploration.heap) (editor : User.t) :
  let h' := (Exploration.add_editor editor h).2 in
  returns (Exploration.is_editable_by (Some editor)) h' (Some true) ∧
  ∀ user, returns (Exploration.is_editable_by user) h (Some true) →
          returns (Exploration.is_editable_by user) h' (Some true).
Proof.
  cbv zeta. unfold returns. split.
  - rewrite is_editable_by_eq. cbn. do 2 f_equal.
    apply bool_decide_eq_true, elem_of_app. right. by left.
  - intros user. rewrite !is_editable_by_eq. cbn.
    destruct user as [u|]; [|done]. intros [= Hu]. do 2 f_equal.
    apply bool_decide_eq_true in Hu.
    apply bool_decide_eq_true, elem_of_app. by left.
Qed.

(** X11. [add_editor] never changes the owner of an exploration that has one:
    [is_owned_by] gives the same answer for every user before and after.  On
    an exploration without editors, where [is_owned_by] raises, the editor
    added first becomes the owner. *)
Theorem add_editor_and_owner (h : Exploration.heap) (editor : User.t) :
  let h' := (Exploration.add_editor editor h).2 in
  (Exploration.editors (Exploration.self h) ≠ [] →
   ∀ user, (Exploration.is_owned_by user h').1 =
           (Exploration.is_owned_by user h).1) ∧
  (Exploration.editors (Exploration.self h) = [] →
   returns (Exploration.is_owned_by (Some editor)) h' (Some true) ∧
   ∀ user, user ≠ editor →
           returns (Exploration.is_owned_by (Some user)) h' (Some false)).
Proof.
  cbv zeta. unfold returns. split.
  - intros Hne user. rewrite !is_owned_by_eq. cbn.
    by destruct user, (Exploration.editors (Exploration.self h)).
  - intros Hnil. split.
    + rewrite is_owned_by_eq. cbn. rewrite Hnil. cbn.
      by rewrite bool_decide_true.
    + intros user Hne. rewrite is_owned_by_eq. cbn. rewrite Hnil. cbn.
      by rewrite bool_decide_false.
Qed.

Section EditorsAndSaving.
Context (DEMO_EXPLORATIONS : list string).
Context (State_get_new_id : State.kind → string → string).

Local Abbreviation put := (Exploration.put DEMO_EXPLORATIONS).
Local Abbreviation add_state :=
  (Exploration.add_state DEMO_EXPLORATIONS State_get_new_id).
Local Abbreviation states h :=
  (Exploration.State_kind (Exploration.ndb h)).
Local Abbreviation explorations h :=
  (Exploration.Exploration_kind (Exploration.ndb h)).
Local Abbreviation ids h := (Exploration.state_ids (Exploration.self h)).

(** X12. [add_editor] followed by [put] always passes the check of the
    editors: on an exploration whose state ids are not empty and all resolve,
    the two calls return, the record stored under the id of the exploration
    lists the new editor last, and the exploration is among those the editor
    can view. *)
Theorem add_editor_then_put (h : Exploration.heap) (editor : User.t) :
  ids h ≠ [] →
  (∀ sid, sid ∈ ids h → is_Some (State.get_by_id sid (states h))) →
  ∃ h', (Exploration.add_editor editor ;; put) h = (inr tt, h') ∧
        states h' = states h ∧
        Exploration.self h' =
          Exploration.set_editors
            (Exploration.editors (Exploration.self h) ++ [editor])
            (Exploration.self h) ∧
        explorations h' !! Exploration.id (Exploration.self h) =
          Some (Exploration.self h') ∧
        Exploration.self h' ∈
          Query.fetch (explorations h')
                      (Exploration.get_viewable_explorations editor).
Proof.
  intros Hids Hres.
  unfold Exploration.add_editor. rewrite modify_bind.
  set (h1 := Exploration.with_self _ h).
  unfold Exploration.put. rewrite bind_unfold.
  rewrite (_pre_put_hook_eq _ h1 _ (is_demo_eq DEMO_EXPLORATIONS h1)).
  assert (Exploration.state_ids (Exploration.self h1) = ids h) as ->
    by (by destruct h as [e d]).
  assert (states h1 = states h) as -> by (by destruct h as [e d]).
  rewrite (bool_decide_false _ Hids).
  assert (forallb (λ sid, bool_decide (is_Some (State.get_by_id sid (states h))))
                  (ids h) = true) as ->.
  { apply forallb_true_elem. intros sid Hsid.
    by apply bool_decide_eq_true, Hres. }
  rewrite (bool_decide_false (Exploration.editors (Exploration.self h1) = [])),
    andb_false_r.
  2:{ destruct h as [e d]. cbn. by destruct (Exploration.editors e). }
  unfold modify. eexists. split; [reflexivity|].
  destruct h as [e [ks ke]]. cbn. split; [done|]. split; [done|].
  split; [apply lookup_insert_eq|].
  apply elem_of_fetch. split.
  - eexists. apply lookup_insert_eq.
  - intros node ->%list_elem_of_singleton.
    unfold Query.OR, Exploration.editors_eq. cbn.
    rewrite (bool_decide_true (editor ∈ _ ++ [editor])); [apply orb_true_r|].
    apply elem_of_app. right. by left.
Qed.

(** X13. [add_editor] does not save, but the next successful [add_state]
    does: on an exploration whose state ids resolve and that has no state of
    the name, [add_editor] followed by [add_state] returns, and the record
    stored under the id of the exploration lists the new editor. *)
Theorem add_editor_then_add_state (h : Exploration.heap) (editor : User.t)
    (state_name : string) (state_id : option string) :
  (∀ sid, sid ∈ ids h → is_Some (State.get_by_id sid (states h))) →
  ¬ contains_state_named h state_name →
  ∃ new_state h' e,
    (Exploration.add_editor editor ;; add_state state_name state_id) h =
      (inr new_state, h') ∧
    explorations h' !! Exploration.id (Exploration.self h) = Some e ∧
    Exploration.editors e =
      Exploration.editors (Exploration.self h) ++ [editor] ∧
    Exploration.state_ids e = ids h ++ [State.id new_state].
Proof.
  intros Hres Hnone.
  unfold Exploration.add_editor. rewrite modify_bind.
  set (h1 := Exploration.with_self _ h).
  assert (Hids1 : Exploration.state_ids (Exploration.self h1) = ids h)
    by (by destruct h as [e d]).
  assert (Hst1 : states h1 = states h) by (by destruct h as [e d]).
  rewrite add_state_eq, Hids1, Hst1.
  apply find_unresolved_None in Hres. rewrite Hres.
  destruct (existsb _ _) eqn:Hdup.
  { exfalso. apply Hnone, existsb_state_named. done. }
  cbv zeta.
  rewrite (bool_decide_false (Exploration.editors (Exploration.self h1) = [])),
    andb_false_r.
  2:{ destruct h as [e d]. cbn. by destruct (Exploration.editors e). }
  do 3 eexists. split; [reflexivity|].
  subst h1. cbn. split; [apply lookup_insert_eq|]. done.
Qed.
End EditorsAndSaving.

Lemma add_editor_and_owner_witness :
  (Exploration.is_owned_by (Some bob)
     (Exploration.add_editor carol algebra_heap).2).1 =
  (Exploration.is_owned_by (Some bob) algebra_heap).1.
Proof.
  apply (proj1 (add_editor_and_owner algebra_heap carol)). discriminate.
Defined.

Lemma pitch_states_resolve (sid : string) :
  sid ∈ Exploration.state_ids (Exploration.self pitch_heap) →
  is_Some (State.get_by_id sid
             (Exploration.State_kind (Exploration.ndb pitch_heap))).
Proof.
  intros [->|[]%elem_of_nil]%elem_of_cons. vm_compute. eauto.
Qed.

Lemma add_editor_then_put_witness :
  ∃ h', (Exploration.add_editor carol ;; Exploration.put []) pitch_heap =
          (inr tt, h') ∧
        Exploration.State_kind (Exploration.ndb h') =
          Exploration.State_kind (Exploration.ndb pitch_heap) ∧
        Exploration.self h' = Exploration.set_editors [carol] pitch ∧
        Exploration.Exploration_kind (Exploration.ndb h') !! "1" =
          Some (Exploration.self h') ∧
        Exploration.self h' ∈
          Query.fetch (Exploration.Exploration_kind (Exploration.ndb h'))
                      (Exploration.get_viewable_explorations carol).
Proof.
  apply (add_editor_then_put [] pitch_heap carol).
  - discriminate.
  - exact pitch_states_resolve.
Defined.

Lemma algebra_has_no_Summary : ¬ contains_state_named algebra_heap "Summary".
Proof. intros Hc. apply existsb_state_named in Hc. discriminate Hc. Qed.

Lemma add_editor_then_add_state_witness :
  ∃ new_state h' e,
    (Exploration.add_editor carol ;;
     Exploration.add_state three_demos id_of_name "Summary" None)
      algebra_heap = (inr new_state, h') ∧
    Exploration.Exploration_kind (Exploration.ndb h') !! "x7Kq" = Some e ∧
    Exploration.editors e = [alice; bob; carol] ∧
    Exploration.state_ids e = ["s1"; "s2"] ++ [State.id new_state].
Proof.
  apply (add_editor_then_add_state three_demos id_of_name algebra_heap carol
           "Summary" None).
  - exact algebra_states_resolve.
  - exact algebra_has_no_Summary.
Defined.

(** ** More on the list of states *)

Lemma find_unresolved_first (k : State.kind) (l : list string) (bad : string) :
  List.find (λ sid, negb (resolves k sid)) l = Some bad →
  bad ∈ l ∧ State.get_by_id bad k = None.
Proof.
  intros [Hin Hn]%find_some. split; [by apply list_elem_of_In|].
  apply negb_true_iff, bool_decide_eq_false in Hn.
  destruct (State.get_by_id bad k); [|done]. exfalso. eauto.
Qed.

Section MoreStateList.
Context (DEMO_EXPLORATIONS : list string).
Context (State_get_new_id : State.kind → string → string).

Local Abbreviation is_demo := (Exploration.is_demo DEMO_EXPLORATIONS).
Local Abbreviation _pre_put_hook :=
  (Exploration._pre_put_hook DEMO_EXPLORATIONS).
Local Abbreviation add_state :=
  (Exploration.add_state DEMO_EXPLORATIONS State_get_new_id).
Local Abbreviation states h :=
  (Exploration.State_kind (Exploration.ndb h)).
Local Abbreviation explorations h :=
  (Exploration.Exploration_kind (Exploration.ndb h)).
Local Abbreviation ids h := (Exploration.state_ids (Exploration.self h)).
Local Abbreviation new_id := (new_state_id State_get_new_id).

(** [add_state] when it goes through. *)
Lemma add_state_returns_eq (h : Exploration.heap) (state_name : string)
    (state_id : option string) :
  (∀ sid, sid ∈ ids h → is_Some (State.get_by_id sid (states h))) →
  ¬ contains_state_named h state_name →
  returns is_demo h true ∨ Exploration.editors (Exploration.self h) ≠ [] →
  add_state state_name state_id h =
  (inr {| State.id := new_id h state_name state_id;
          State.name := state_name |},
   committed (with_new_state h (new_id h state_name state_id) state_name)).
Proof.
  intros Hres%find_unresolved_None Hnone Hed.
  rewrite add_state_eq, Hres.
  destruct (existsb _ _) eqn:Hdup.
  { exfalso. by apply Hnone, existsb_state_named. }
  cbv zeta.
  assert (negb (is_demo_id (length DEMO_EXPLORATIONS)
                           (Exploration.id (Exploration.self h)))
          && bool_decide (Exploration.editors (Exploration.self h) = [])
          = false) as ->; [|done].
  destruct Hed as [Hd|He].
  - unfold returns in Hd. rewrite is_demo_eq in Hd. by injection Hd as ->.
  - rewrite (bool_decide_false _ He). apply andb_false_r.
Qed.

(** The ids of the exploration still resolve once the new State is stored,
    and so does the new id. *)
Lemma with_new_state_resolves (h : Exploration.heap) (sid state_name : string)
    (f : gmap string Exploration.t → gmap string Exploration.t) :
  (∀ x, x ∈ ids h → is_Some (State.get_by_id x (states h))) →
  ∀ x, x ∈ ids (Exploration.with_Exploration_kind f
                  (with_new_state h sid state_name)) →
       is_Some (State.get_by_id x
                  (states (Exploration.with_Exploration_kind f
                             (with_new_state h sid state_name)))).
Proof.
  intros Hres x Hx. apply get_by_id_is_Some.
  destruct h as [e [ks ke]]. cbn in *.
  destruct (decide (sid = x)) as [->|Hne].
  - rewrite lookup_insert_eq. eauto.
  - rewrite lookup_insert_ne by done. apply get_by_id_is_Some, Hres.
    apply elem_of_app in Hx as [Hx|Hx]; [done|].
    apply list_elem_of_singleton in Hx. congruence.
Qed.

Lemma hook_ignores_explorations (h : Exploration.heap)
    (f : gmap string Exploration.t → gmap string Exploration.t) :
  (_pre_put_hook (Exploration.with_Exploration_kind f h)).1 =
  (_pre_put_hook h).1.
Proof.
  rewrite (_pre_put_hook_eq _ _ _ (is_demo_eq DEMO_EXPLORATIONS _)).
  rewrite (_pre_put_hook_eq _ h _ (is_demo_eq DEMO_EXPLORATIONS h)).
  by destruct h as [e [ks ke]].
Qed.

(** X14. [_has_state_named] only reads.  When every state id of the
    exploration resolves, it returns, and what it returns is true exactly when
    one of the ids resolves to a State of that name; otherwise it raises the
    exception of the strict lookup for an id that does not resolve, even when
    a State of that name is listed. *)
Theorem has_state_named_reads (h : Exploration.heap) (state_name : string) :
  (Exploration._has_state_named state_name h).2 = h ∧
  ((∀ sid, sid ∈ ids h → is_Some (State.get_by_id sid (states h))) →
   ∃ b : bool, Exploration._has_state_named state_name h = (inr b, h) ∧
               (b = true ↔ contains_state_named h state_name)) ∧
  ((∃ sid, sid ∈ ids h ∧ State.get_by_id sid (states h) = None) →
   ∃ bad, bad ∈ ids h ∧ State.get_by_id bad (states h) = None ∧
          raises (Exploration._has_state_named state_name) h
                 (State.not_found bad)).
Proof.
  unfold raises. rewrite _has_state_named_eq. split; [done|]. split.
  - intros Hres%find_unresolved_None. rewrite Hres.
    eexists. split; [reflexivity|]. apply existsb_state_named.
  - intros (sid & Hsid & Hn).
    destruct (List.find _ _) as [bad|] eqn:Hfind.
    + apply find_unresolved_first in Hfind as [Hin Hbad]. eauto.
    + rewrite find_unresolved_None in Hfind. apply Hfind in Hsid.
      rewrite Hn in Hsid. by destruct Hsid.
Qed.

(** X15. [add_state] is not all or nothing when the validation rejects the
    exploration.  On an exploration that is not a demo and has no editor
    (its state ids resolving, none to a State of the name), it raises the
    validation exception after the new State is stored and its id is in the
    list of the entity in memory; the record of the exploration is not
    written. *)
Theorem add_state_rejected_keeps_state (h : Exploration.heap)
    (state_name : string) (state_id : option string) :
  (∀ sid, sid ∈ ids h → is_Some (State.get_by_id sid (states h))) →
  ¬ contains_state_named h state_name →
  returns is_demo h false →
  Exploration.editors (Exploration.self h) = [] →
  let sid := new_id h state_name state_id in
  ∃ h', add_state state_name state_id h =
          (inl (ModelValidationError "This exploration has no editors."), h') ∧
        State.get_by_id sid (states h') =
          Some {| State.id := sid; State.name := state_name |} ∧
        ids h' = ids h ++ [sid] ∧
        explorations h' = explorations h.
Proof.
  intros Hres%find_unresolved_None Hnone Hd Hed sid.
  rewrite add_state_eq, Hres.
  destruct (existsb _ _) eqn:Hdup.
  { exfalso. by apply Hnone, existsb_state_named. }
  cbv zeta. unfold returns in Hd. rewrite is_demo_eq in Hd.
  injection Hd as ->. rewrite (bool_decide_true _ Hed). cbn [negb andb].
  eexists. split; [reflexivity|]. fold sid.
  destruct h as [e [ks ke]]. cbn. unfold State.get_by_id.
  by rewrite lookup_insert_eq.
Qed.

(** X16. Once [add_state] has gone through, the name is taken: a second
    [add_state] with the same name, whatever the id, raises the
    duplicate-name exception and changes nothing. *)
Theorem add_state_twice (h : Exploration.heap) (state_name : string)
    (state_id state_id' : option string) :
  (∀ sid, sid ∈ ids h → is_Some (State.get_by_id sid (states h))) →
  ¬ contains_state_named h state_name →
  returns is_demo h true ∨ Exploration.editors (Exploration.self h) ≠ [] →
  let h' := (add_state state_name state_id h).2 in
  add_state state_name state_id' h' =
  (inl (duplicate_state_name state_name), h').
Proof.
  intros Hres Hnone Hed. cbv zeta.
  rewrite (add_state_returns_eq h state_name state_id Hres Hnone Hed).
  cbn [snd]. set (sid := new_id h state_name state_id).
  unfold committed. rewrite add_state_eq.
  pose proof (with_new_state_resolves h sid state_name
    (<[Exploration.id (Exploration.self (with_new_state h sid state_name)) :=
         Exploration.self (with_new_state h sid state_name)]>) Hres) as Hres'.
  apply find_unresolved_None in Hres'. rewrite Hres'.
  assert (existsb (state_named _ state_name) _ = true) as ->; [|done].
  apply existsb_state_named.
  exists sid, {| State.id := sid; State.name := state_name |}.
  destruct h as [e [ks ke]]. cbn. split; [|split; [|done]].
  - apply elem_of_app. right. by left.
  - unfold State.get_by_id. by rewrite lookup_insert_eq.
Qed.

(** X17. [add_state] keeps the exploration valid: when it has gone through,
    the validation hook returns on the exploration it leaves, whose state ids
    are not empty and all resolve. *)
Theorem add_state_keeps_valid (h : Exploration.heap) (state_name : string)
    (state_id : option string) :
  (∀ sid, sid ∈ ids h → is_Some (State.get_by_id sid (states h))) →
  ¬ contains_state_named h state_name →
  returns is_demo h true ∨ Exploration.editors (Exploration.self h) ≠ [] →
  let h' := (add_state state_name state_id h).2 in
  returns _pre_put_hook h' tt ∧
  ids h' ≠ [] ∧
  (∀ sid, sid ∈ ids h' → is_Some (State.get_by_id sid (states h'))).
Proof.
  intros Hres Hnone Hed. cbv zeta.
  rewrite (add_state_returns_eq h state_name state_id Hres Hnone Hed).
  cbn [snd]. set (sid := new_id h state_name state_id).
  unfold committed, returns. split; [|split].
  - rewrite hook_ignores_explorations, (hook_after_new_state _ _ _ _ Hres).
    cbn [fst].
    assert (negb (is_demo_id (length DEMO_EXPLORATIONS)
                             (Exploration.id (Exploration.self h)))
            && bool_decide (Exploration.editors (Exploration.self h) = [])
            = false) as ->; [|done].
    destruct Hed as [Hd|He].
    + unfold returns in Hd. rewrite is_demo_eq in Hd. by injection Hd as ->.
    + rewrite (bool_decide_false _ He). apply andb_false_r.
  - destruct h as [e [ks ke]]. cbn. by destruct (Exploration.state_ids e).
  - by apply with_new_state_resolves.
Qed.

(** X18. [add_state] does not check the id it is given against the list: the
    state ids stay pairwise distinct exactly when they were and the id of the
    new State was not yet among them. *)
Theorem add_state_distinct_ids (h : Exploration.heap) (state_name : string)
    (state_id : option string) :
  (∀ sid, sid ∈ ids h → is_Some (State.get_by_id sid (states h))) →
  ¬ contains_state_named h state_name →
  returns is_demo h true ∨ Exploration.editors (Exploration.self h) ≠ [] →
  let h' := (add_state state_name state_id h).2 in
  NoDup (ids h') ↔
  NoDup (ids h) ∧ new_id h state_name state_id ∉ ids h.
Proof.
  intros Hres Hnone Hed. cbv zeta.
  rewrite (add_state_returns_eq h state_name state_id Hres Hnone Hed).
  cbn [snd]. set (sid := new_id h state_name state_id).
  assert (ids (committed (with_new_state h sid state_name)) = ids h ++ [sid])
    as -> by (by destruct h as [e [ks ke]]).
  rewrite NoDup_app. split.
  - intros (Hnd & Hdisj & _). split; [done|].
    intros Hin. apply (Hdisj sid Hin). by left.
  - intros [Hnd Hnotin]. split; [done|]. split.
    + intros x Hx ->%list_elem_of_singleton. done.
    + apply NoDup_singleton.
Qed.

(** X19. [add_state] touches nothing else: the States stored under other ids
    and the records of other explorations are as before, and so are the
    properties of the exploration other than its state ids.  The State stored
    under the new id has the new name, whatever was stored there before. *)
Theorem add_state_frame (h : Exploration.heap) (state_name : string)
    (state_id : option string) :
  (∀ sid, sid ∈ ids h → is_Some (State.get_by_id sid (states h))) →
  ¬ contains_state_named h state_name →
  returns is_demo h true ∨ Exploration.editors (Exploration.self h) ≠ [] →
  let h' := (add_state state_name state_id h).2 in
  let sid := new_id h state_name state_id in
  states h' !! sid = Some state_name ∧
  (∀ other, other ≠ sid → states h' !! other = states h !! other) ∧
  (∀ other, other ≠ Exploration.id (Exploration.self h) →
            explorations h' !! other = explorations h !! other) ∧
  Exploration.set_state_ids (ids h) (Exploration.self h') = Exploration.self h.
Proof.
  intros Hres Hnone Hed. cbv zeta.
  rewrite (add_state_returns_eq h state_name state_id Hres Hnone Hed).
  cbn [snd]. set (sid := new_id h state_name state_id).
  destruct h as [e [ks ke]]. cbn. split; [apply lookup_insert_eq|].
  split; [|split].
  - intros other Hne. by rewrite lookup_insert_ne.
  - intros other Hne. by rewrite lookup_insert_ne.
  - by destruct e.
Qed.

(** X20. When [add_state] has gone through on an exploration that had no
    state, the new State is the first state of the exploration. *)
Theorem add_state_first_state (h : Exploration.heap) (state_name : string)
    (state_id : option string) :
  ids h = [] →
  returns is_demo h true ∨ Exploration.editors (Exploration.self h) ≠ [] →
  let h' := (add_state state_name state_id h).2 in
  Exploration.init_state h' =
  (inr (Some {| State.id := new_id h state_name state_id;
                State.name := state_name |}), h').
Proof.
  intros Hnil Hed. cbv zeta.
  rewrite (add_state_returns_eq h state_name state_id); [|..|done].
  - cbn [snd]. set (sid := new_id h state_name state_id).
    unfold Exploration.init_state. rewrite gets_bind. cbn [compose].
    assert (ids (committed (with_new_state h sid state_name)) = [sid]) as ->.
    { destruct h as [e [ks ke]]. cbn in *. by rewrite Hnil. }
    cbn [first_item]. step. rewrite get_strict.
    assert (State.get_by_id sid
              (states (committed (with_new_state h sid state_name))) =
            Some {| State.id := sid; State.name := state_name |}) as ->; [|done].
    destruct h as [e [ks ke]]. cbn. unfold State.get_by_id.
    by rewrite lookup_insert_eq.
  - intros sid Hsid. rewrite Hnil in Hsid. by apply elem_of_nil in Hsid.
  - intros (sid & s & Hsid & _). rewrite Hnil in Hsid.
    by apply elem_of_nil in Hsid.
Qed.
End MoreStateList.

(** ** More on deletion *)

Section MoreDeletion.
Context (DEMO_EXPLORATIONS : list string).

Local Abbreviation put := (Exploration.put DEMO_EXPLORATIONS).
Local Abbreviation states h :=
  (Exploration.State_kind (Exploration.ndb h)).
Local Abbreviation explorations h :=
  (Exploration.Exploration_kind (Exploration.ndb h)).
Local Abbreviation ids h := (Exploration.state_ids (Exploration.self h)).
Local Abbreviation delete_state state_id :=
  (entity ← Exploration.on_State_kind (State.get state_id true);
   match entity with
   | Some s => Exploration.on_State_kind (State.delete s)
   | None => raise (AttributeError "'NoneType' object has no attribute")
   end).

(** The loop of [delete] only gets through a list of distinct ids that
    resolve. *)
Lemma delete_loop_returns_inv (l : list string) : ∀ h h' : Exploration.heap,
  for_each l (λ sid, delete_state sid) h = (inr tt, h') →
  NoDup l ∧ ∀ sid, sid ∈ l → is_Some (State.get_by_id sid (states h)).
Proof.
  induction l as [|sid l IH]; intros h h'.
  - intros _. split; [apply NoDup_nil_2|].
    intros sid Hsid. by apply elem_of_nil in Hsid.
  - cbn [for_each]. rewrite (bind_unfold (delete_state sid)), delete_state_eq.
    destruct (resolves (states h) sid) eqn:Hsid; [|by intros [=]].
    intros [Hnd Hres]%IH.
    assert (Hlater : ∀ x, x ∈ l → x ≠ sid ∧
                          is_Some (State.get_by_id x (states h))).
    { intros x Hx. apply Hres, get_by_id_is_Some in Hx as [n Hn].
      destruct h as [e [ks ke]]. cbn in Hn.
      apply lookup_delete_Some in Hn as [Hne Hn].
      split; [done|]. apply get_by_id_is_Some. cbn. eauto. }
    split.
    + apply NoDup_cons. split; [|done].
      intros Hin. by apply Hlater in Hin as [? _].
    + intros x [->|Hx]%elem_of_cons.
      * by apply bool_decide_eq_true in Hsid.
      * by apply Hlater.
Qed.

(** X21. [delete] returns exactly when the state ids of the exploration are
    pairwise distinct and all resolve.  When it raises, the exception is the
    one of the strict lookup for one of the state ids, and the record of the
    exploration and the entity in memory are as before. *)
Theorem delete_returns_exactly_when (h : Exploration.heap) :
  ((∃ h', Exploration.delete h = (inr tt, h')) ↔
   NoDup (ids h) ∧
   ∀ sid, sid ∈ ids h → is_Some (State.get_by_id sid (states h))) ∧
  (∀ e, raises Exploration.delete h e →
        (∃ bad, bad ∈ ids h ∧ e = State.not_found bad) ∧
        Exploration.self (Exploration.delete h).2 = Exploration.self h ∧
        explorations (Exploration.delete h).2 = explorations h).
Proof.
  split.
  - split.
    + intros [h' Hdel]. unfold Exploration.delete in Hdel.
      rewrite gets_bind in Hdel. cbn [compose] in Hdel.
      rewrite bind_unfold in Hdel.
      destruct (for_each (ids h) (λ sid, delete_state sid) h)
        as [[e|[]] h1] eqn:Hloop; [done|].
      by apply delete_loop_returns_inv in Hloop.
    + intros [Hnd Hres]. unfold Exploration.delete.
      rewrite gets_bind. cbn [compose].
      rewrite bind_unfold, (delete_loop_returns _ h Hnd Hres).
      eexists. reflexivity.
  - intros e He.
    pose proof (delete_raises_keeps_record h e He) as [Hbad Hrec].
    split; [done|]. split; [|done].
    unfold raises, Exploration.delete in He |- *.
    rewrite gets_bind in He |- *. cbn [compose] in He |- *.
    rewrite bind_unfold in He |- *.
    destruct (delete_loop_frame (ids h) h) as [[k Hk] _].
    destruct (for_each (ids h) (λ sid, delete_state sid) h)
      as [[e'|[]] h1] eqn:Hloop; [|done].
    cbn [snd] in *. rewrite Hk. by destruct h as [x [ks ke]].
Qed.

(** X22. A deleted exploration cannot be saved again as it is: after a
    [delete] that returns, [put] on the same entity raises a validation
    exception (its states are gone, or it never had any), and the record
    stays deleted. *)
Theorem delete_then_put_raises (h : Exploration.heap) :
  NoDup (ids h) →
  (∀ sid, sid ∈ ids h → is_Some (State.get_by_id sid (states h))) →
  ∃ msg h',
    (Exploration.delete ;; put) h = (inl (ModelValidationError msg), h') ∧
    (msg = "This exploration has no states." ∨ msg = "Invalid state_id %s.") ∧
    explorations h' !! Exploration.id (Exploration.self h) = None.
Proof.
  intros Hnd Hres.
  rewrite bind_unfold. unfold Exploration.delete at 1.
  rewrite gets_bind. cbn [compose].
  rewrite bind_unfold, (delete_loop_returns _ h Hnd Hres).
  unfold Exploration.super_delete, modify.
  set (h1 := Exploration.with_Exploration_kind _ _).
  unfold Exploration.put. rewrite bind_unfold.
  rewrite (_pre_put_hook_eq _ h1 _ (is_demo_eq DEMO_EXPLORATIONS h1)).
  assert (Hrec : explorations h1 !! Exploration.id (Exploration.self h) = None).
  { destruct h as [e [ks ke]]. cbn. apply lookup_delete_eq. }
  assert (Hids : ids h1 = ids h) by (by destruct h as [e [ks ke]]).
  assert (Hst : states h1 = delete_states (ids h) (states h))
    by (by destruct h as [e [ks ke]]).
  rewrite Hids, Hst.
  case_bool_decide as Hnil; [by eauto 10|].
  assert (forallb
            (λ sid, bool_decide
               (is_Some (State.get_by_id sid (delete_states (ids h) (states h)))))
            (ids h) = false) as ->; [|by eauto 10].
  destruct (ids h) as [|sid l] eqn:Hl; [done|].
  cbn [forallb]. rewrite bool_decide_false; [done|].
  rewrite get_by_id_is_Some, lookup_delete_states, decide_True by (by left).
  by intros [? ?].
Qed.
End MoreDeletion.

(** ** The further properties on sample data *)

Lemma validated_has_init_state_witness :
  ∃ sid n,
    head (Exploration.state_ids (Exploration.self algebra_heap)) = Some sid ∧
    Exploration.State_kind (Exploration.ndb algebra_heap) !! sid = Some n ∧
    Exploration.init_state algebra_heap =
    (inr (Some {| State.id := sid; State.name := n |}), algebra_heap).
Proof.
  apply (validated_has_init_state three_demos algebra_heap). reflexivity.
Defined.

(** The new exploration has neither states nor editors: the hook reports the
    missing states. *)
Lemma hook_reports_first_failure_witness :
  ("This exploration has no states." = "This exploration has no states." ∧
   Exploration.state_ids (Exploration.self draft_heap) = []) ∨
  ("This exploration has no states." = "Invalid state_id %s." ∧
   Exploration.state_ids (Exploration.self draft_heap) ≠ [] ∧
   ∃ sid, sid ∈ Exploration.state_ids (Exploration.self draft_heap) ∧
          State.get_by_id sid
            (Exploration.State_kind (Exploration.ndb draft_heap)) = None) ∨
  ("This exploration has no states." = "This exploration has no editors." ∧
   Exploration.state_ids (Exploration.self draft_heap) ≠ [] ∧
   (∀ sid, sid ∈ Exploration.state_ids (Exploration.self draft_heap) →
           is_Some (State.get_by_id sid
                      (Exploration.State_kind (Exploration.ndb draft_heap)))) ∧
   returns (Exploration.is_demo three_demos) draft_heap false ∧
   Exploration.editors (Exploration.self draft_heap) = []).
Proof.
  apply (hook_reports_first_failure three_demos draft_heap
           "This exploration has no states.").
  reflexivity.
Defined.

Lemma draft_states_resolve (sid : string) :
  sid ∈ Exploration.state_ids (Exploration.self draft_heap) →
  is_Some (State.get_by_id sid
             (Exploration.State_kind (Exploration.ndb draft_heap))).
Proof. by intros []%elem_of_nil. Qed.

Lemma draft_has_no_Intro : ¬ contains_state_named draft_heap "Intro".
Proof. by intros (sid & s & []%elem_of_nil & _). Qed.

Lemma add_state_rejected_keeps_state_witness :
  ∃ h', Exploration.add_state three_demos id_of_name "Intro" None draft_heap =
          (inl (ModelValidationError "This exploration has no editors."), h') ∧
        State.get_by_id "id-Intro"
          (Exploration.State_kind (Exploration.ndb h')) =
          Some {| State.id := "id-Intro"; State.name := "Intro" |} ∧
        Exploration.state_ids (Exploration.self h') = [] ++ ["id-Intro"] ∧
        Exploration.Exploration_kind (Exploration.ndb h') =
          Exploration.Exploration_kind (Exploration.ndb draft_heap).
Proof.
  apply (add_state_rejected_keeps_state three_demos id_of_name draft_heap
           "Intro" None).
  - exact draft_states_resolve.
  - exact draft_has_no_Intro.
  - reflexivity.
  - reflexivity.
Defined.

Lemma algebra_has_editors :
  returns (Exploration.is_demo three_demos) algebra_heap true ∨
  Exploration.editors (Exploration.self algebra_heap) ≠ [].
Proof. right. discriminate. Qed.

Lemma add_state_twice_witness :
  Exploration.add_state three_demos id_of_name "Summary" (Some "s9")
    (Exploration.add_state three_demos id_of_name "Summary" None
       algebra_heap).2 =
  (inl (duplicate_state_name "Summary"),
   (Exploration.add_state three_demos id_of_name "Summary" None
      algebra_heap).2).
Proof.
  apply (add_state_twice three_demos id_of_name algebra_heap "Summary"
           None (Some "s9")).
  - exact algebra_states_resolve.
  - exact algebra_has_no_Summary.
  - exact algebra_has_editors.
Defined.

Lemma add_state_keeps_valid_witness :
  let h' := (Exploration.add_state three_demos id_of_name "Summary" None
               algebra_heap).2 in
  returns (Exploration._pre_put_hook three_demos) h' tt ∧
  Exploration.state_ids (Exploration.self h') ≠ [] ∧
  (∀ sid, sid ∈ Exploration.state_ids (Exploration.self h') →
          is_Some (State.get_by_id sid
                     (Exploration.State_kind (Exploration.ndb h')))).
Proof.
  apply (add_state_keeps_valid three_demos id_of_name algebra_heap "Summary"
           None).
  - exact algebra_states_resolve.
  - exact algebra_has_no_Summary.
  - exact algebra_has_editors.
Defined.

(** Giving [add_state] the id of a state that is already listed leaves the id
    twice in the list. *)
Lemma add_state_distinct_ids_witness :
  NoDup (Exploration.state_ids
           (Exploration.self
              (Exploration.add_state three_demos id_of_name "Summary"
                 (Some "s1") algebra_heap).2)) ↔
  NoDup (Exploration.state_ids (Exploration.self algebra_heap)) ∧
  "s1" ∉ Exploration.state_ids (Exploration.self algebra_heap).
Proof.
  apply (add_state_distinct_ids three_demos id_of_name algebra_heap "Summary"
           (Some "s1")).
  - exact algebra_states_resolve.
  - exact algebra_has_no_Summary.
  - exact algebra_has_editors.
Defined.

Lemma add_state_frame_witness :
  let h' := (Exploration.add_state three_demos id_of_name "Summary"
               (Some "s1") algebra_heap).2 in
  Exploration.State_kind (Exploration.ndb h') !! "s1" = Some "Summary" ∧
  (∀ other, other ≠ "s1" →
            Exploration.State_kind (Exploration.ndb h') !! other =
            Exploration.State_kind (Exploration.ndb algebra_heap) !! other) ∧
  (∀ other, other ≠ "x7Kq" →
            Exploration.Exploration_kind (Exploration.ndb h') !! other =
            Exploration.Exploration_kind (Exploration.ndb algebra_heap)
              !! other) ∧
  Exploration.set_state_ids ["s1"; "s2"] (Exploration.self h') = algebra.
Proof.
  apply (add_state_frame three_demos id_of_name algebra_heap "Summary"
           (Some "s1")).
  - exact algebra_states_resolve.
  - exact algebra_has_no_Summary.
  - exact algebra_has_editors.
Defined.

Lemma add_state_first_state_witness :
  Exploration.init_state
    (Exploration.add_state three_demos id_of_name "Intro" None blank_heap).2 =
  (inr (Some {| State.id := "id-Intro"; State.name := "Intro" |}),
   (Exploration.add_state three_demos id_of_name "Intro" None blank_heap).2).
Proof.
  apply (add_state_first_state three_demos id_of_name blank_heap "Intro" None).
  - reflexivity.
  - right. discriminate.
Defined.

Lemma delete_then_put_raises_witness :
  ∃ msg h',
    (Exploration.delete ;; Exploration.put three_demos) algebra_heap =
      (inl (ModelValidationError msg), h') ∧
    (msg = "This exploration has no states." ∨ msg = "Invalid state_id %s.") ∧
    Exploration.Exploration_kind (Exploration.ndb h') !! "x7Kq" = None.
Proof.
  apply (delete_then_put_raises three_demos algebra_heap).
  - exact algebra_state_ids_NoDup.
  - exact algebra_states_resolve.
Defined.

(** [delete] on the exploration with a dangling state id: the first State is
    deleted, the lookup of the second raises, the record stays. *)
Example delete_dangling :
  (Exploration.delete dangling_heap).1 = inl (State.not_found "gone") ∧
  Exploration.State_kind (Exploration.ndb (Exploration.delete dangling_heap).2)
    !! "s1" = None ∧
  Exploration.Exploration_kind
    (Exploration.ndb (Exploration.delete dangling_heap).2) !! "dngl" =
    Some dangling.
Proof. repeat split. Qed.

(** ** Saving, deleting and the queries *)

Section SavingAndQueries.
Context (DEMO_EXPLORATIONS : list string).

Local Abbreviation _pre_put_hook :=
  (Exploration._pre_put_hook DEMO_EXPLORATIONS).
Local Abbreviation put := (Exploration.put DEMO_EXPLORATIONS).
Local Abbreviation states h :=
  (Exploration.State_kind (Exploration.ndb h)).
Local Abbreviation explorations h :=
  (Exploration.Exploration_kind (Exploration.ndb h)).
Local Abbreviation ids h := (Exploration.state_ids (Exploration.self h)).

Lemma put_returns_eq (h : Exploration.heap) :
  returns _pre_put_hook h tt → put h = (inr tt, committed h).
Proof.
  unfold returns, Exploration.put. rewrite bind_unfold.
  pose proof (hook_keeps_heap DEMO_EXPLORATIONS h) as Hk.
  destruct (_pre_put_hook h) as [[e|[]] h']; cbn in *; [by intros [=]|].
  intros _. by subst h'.
Qed.

(** X23. A saved exploration is found by the queries: once [put] has gone
    through, the exploration is among all explorations, among the public
    ones when it is public, and among those each of its editors can view.
    The count of the explorations goes up by one when no record was stored
    under the id, and stays as it was otherwise. *)
Theorem put_then_queries (h : Exploration.heap) :
  returns _pre_put_hook h tt →
  let k' := explorations (put h).2 in
  let e := Exploration.self h in
  e ∈ Query.fetch k' Exploration.get_all_explorations ∧
  (Exploration.is_public e = true →
   e ∈ Query.fetch k' Exploration.get_public_explorations) ∧
  (∀ user, user ∈ Exploration.editors e →
           e ∈ Query.fetch k' (Exploration.get_viewable_explorations user)) ∧
  Exploration.get_exploration_count k' =
    match explorations h !! Exploration.id e with
    | Some _ => Exploration.get_exploration_count (explorations h)
    | None => S (Exploration.get_exploration_count (explorations h))
    end.
Proof.
  intros Hok. cbv zeta. rewrite (put_returns_eq h Hok). cbn [snd].
  assert (Hk : explorations (committed h) =
               <[Exploration.id (Exploration.self h) := Exploration.self h]>
                 (explorations h)) by (by destruct h as [e [ks ke]]).
  rewrite Hk.
  assert (Hin : ∃ i, <[Exploration.id (Exploration.self h) :=
                         Exploration.self h]> (explorations h) !! i =
                     Some (Exploration.self h)).
  { eexists. apply lookup_insert_eq. }
  split; [by apply elem_of_get_all_explorations|]. split; [|split].
  - intros Hpub. apply elem_of_fetch. split; [done|].
    intros node ->%list_elem_of_singleton. by apply bool_decide_eq_true.
  - intros user Hu. apply elem_of_fetch. split; [done|].
    intros node ->%list_elem_of_singleton.
    unfold Query.OR, Exploration.editors_eq.
    rewrite (bool_decide_true _ Hu). apply orb_true_r.
  - rewrite !get_exploration_count_size, map_size_insert.
    by destruct (explorations h !! _).
Qed.

(** X24. After a [delete] that returns, no record is stored under the id of
    the exploration, the records of the other explorations are as before,
    and the count of the explorations is one less when a record was stored
    under the id. *)
Theorem delete_then_queries (h : Exploration.heap) :
  NoDup (ids h) →
  (∀ sid, sid ∈ ids h → is_Some (State.get_by_id sid (states h))) →
  let k' := explorations (Exploration.delete h).2 in
  k' !! Exploration.id (Exploration.self h) = None ∧
  (∀ e, e ∈ Query.fetch k' Exploration.get_all_explorations ↔
        ∃ i, i ≠ Exploration.id (Exploration.self h) ∧
             explorations h !! i = Some e) ∧
  Exploration.get_exploration_count k' =
    match explorations h !! Exploration.id (Exploration.self h) with
    | Some _ => pred (Exploration.get_exploration_count (explorations h))
    | None => Exploration.get_exploration_count (explorations h)
    end.
Proof.
  intros Hnd Hres. cbv zeta. unfold Exploration.delete.
  rewrite gets_bind. cbn [compose].
  rewrite bind_unfold, (delete_loop_returns _ h Hnd Hres).
  unfold Exploration.super_delete, modify. cbn [snd].
  destruct h as [x [ks ke]]. cbn. split; [apply lookup_delete_eq|]. split.
  - intros e. rewrite elem_of_get_all_explorations. split.
    + intros [i [Hne Hi]%lookup_delete_Some]. eauto.
    + intros (i & Hne & Hi). exists i. apply lookup_delete_Some. eauto.
  - rewrite !get_exploration_count_size, map_size_delete.
    by destruct (ke !! _).
Qed.
End SavingAndQueries.

Lemma put_then_queries_witness :
  let k' := Exploration.Exploration_kind
              (Exploration.ndb (Exploration.put three_demos pitch_heap).2) in
  pitch ∈ Query.fetch k' Exploration.get_all_explorations ∧
  (Exploration.is_public pitch = true →
   pitch ∈ Query.fetch k' Exploration.get_public_explorations) ∧
  (∀ user, user ∈ Exploration.editors pitch →
           pitch ∈ Query.fetch k'
                     (Exploration.get_viewable_explorations user)) ∧
  Exploration.get_exploration_count k' =
    match Exploration.Exploration_kind (Exploration.ndb pitch_heap) !! "1" with
    | Some _ =>
        Exploration.get_exploration_count
          (Exploration.Exploration_kind (Exploration.ndb pitch_heap))
    | None =>
        S (Exploration.get_exploration_count
             (Exploration.Exploration_kind (Exploration.ndb pitch_heap)))
    end.
Proof.
  apply (put_then_queries three_demos pitch_heap). reflexivity.
Defined.

Lemma delete_then_queries_witness :
  let k' := Exploration.Exploration_kind
              (Exploration.ndb (Exploration.delete algebra_heap).2) in
  k' !! "x7Kq" = None ∧
  (∀ e, e ∈ Query.fetch k' Exploration.get_all_explorations ↔
        ∃ i, i ≠ "x7Kq" ∧
             Exploration.Exploration_kind (Exploration.ndb algebra_heap) !! i =
             Some e) ∧
  Exploration.get_exploration_count k' =
    match Exploration.Exploration_kind (Exploration.ndb algebra_heap)
            !! "x7Kq" with
    | Some _ =>
        pred (Exploration.get_exploration_count
                (Exploration.Exploration_kind (Exploration.ndb algebra_heap)))
    | None =>
        Exploration.get_exploration_count
          (Exploration.Exploration_kind (Exploration.ndb algebra_heap))
    end.
Proof.
  apply (delete_then_queries algebra_heap).
  - exact algebra_state_ids_NoDup.
  - exact algebra_states_resolve.
Defined.
